(** * bitcoin-core-client: the RPC dispatch path

    A shallow embedding of [__send] of [src/BitcoinClient.js], of
    [isKnownMethod] and [isValidArgsForMethod] of the helper module it
    imports, and of the [RPC] table of [src/constants.js], together with
    the parts of the JavaScript runtime they rely on: property lookup
    through the prototype chain, [JSON.stringify], [JSON.parse], promise
    settlement and the events of an [http] response. *)

From Stdlib Require Import List NArith ZArith String Ascii Bool Lia.
From Stdlib Require Import DecimalN.
Import ListNotations.

Local Open Scope string_scope.
Local Open Scope list_scope.

(** ** JavaScript strings

    A JavaScript string is a sequence of UTF-16 code units.  A code unit is
    kept as its number; [js] turns an ASCII literal of the source into one,
    and [json] does the same for a literal in which each apostrophe stands
    for a double quote (code unit 34), as JSON texts are full of them. *)

Definition code_unit := N.
Definition jsstring := list code_unit.

Definition js (s : string) : jsstring :=
  map N_of_ascii (list_ascii_of_string s).

Definition json (s : string) : jsstring :=
  map (fun c => if N.eqb c 39 then 34%N else c) (js s).

Definition jsstring_eq_dec (a b : jsstring) : {a = b} + {a <> b} :=
  list_eq_dec N.eq_dec a b.

Definition jsstring_eqb (a b : jsstring) : bool :=
  if jsstring_eq_dec a b then true else false.

(** [s.includes(t)]: [t] occurs in [s] as a contiguous run. *)
Fixpoint starts_with (t s : jsstring) : bool :=
  match t, s with
  | [], _ => true
  | _ :: _, [] => false
  | a :: t', b :: s' => N.eqb a b && starts_with t' s'
  end.

Fixpoint includes (s t : jsstring) : bool :=
  starts_with t s ||
  match s with
  | [] => false
  | _ :: s' => includes s' t
  end.

(** What a statement or an expression completes with: a value, or a thrown
    exception. *)
Inductive exception := TypeError | SyntaxError.

Inductive completion (A : Type) :=
| Return (a : A)
| Throw (e : exception).
Arguments Return {A} a.
Arguments Throw {A} e.

(** ** constants.js *)

Module Constants.

Inductive arg_type := ARG_TYPE_OPT | ARG_TYPE_REQ.

(** An entry of an [args] array.  Only [type] and [name] are kept: no
    function reads [default] or [valid_values]. *)
Record ArgumentSpec := { type : arg_type; name : option jsstring }.

Definition required (n : string) : ArgumentSpec :=
  {| type := ARG_TYPE_REQ; name := Some (js n) |}.
Definition optional (n : string) : ArgumentSpec :=
  {| type := ARG_TYPE_OPT; name := Some (js n) |}.
Definition unnamed (t : arg_type) : ArgumentSpec :=
  {| type := t; name := None |}.

(** The [args] property of a descriptor is an array literal everywhere
    but at [setnetworkactive], where it is a single object. *)
Inductive args_field :=
| ArgsArray (l : list ArgumentSpec)
| ArgsObject (a : ArgumentSpec).

(** A value of the table.  [args] is [None] where the property is
    absent; [desc] records whether a description is present (its text is
    never read). *)
Record descriptor := { args : option args_field; desc : bool }.

Definition method (n : string) (a : option args_field) (d : bool)
  : jsstring * descriptor :=
  (js n, {| args := a; desc := d |}).

(** The object literal [RPC], own properties in source order. *)
Definition RPC : list (jsstring * descriptor) := [
  method "getbestblockhash" None true;
  method "getblock" (Some (ArgsArray [required "blockhash"; optional "verbosity"])) true;
  method "getblockchaininfo" None true;
  method "getblockcount" None true;
  method "getblockfilter" (Some (ArgsArray [required "blockhash"; optional "filtertype"])) true;
  method "getblockhash" (Some (ArgsArray [required "height"])) true;
  method "getblockheader" None false;
  method "getblockstats" None false;
  method "getchaintips" None false;
  method "getchaintxstats" None false;
  method "getdifficulty" None false;
  method "getmempoolancestors" None false;
  method "getmempooldescendants" None false;
  method "getmempoolentry" None false;
  method "getmempoolinfo" None false;
  method "getrawmempool" None false;
  method "gettxout" None false;
  method "gettxoutproof" None false;
  method "gettxoutsetinfo" None false;
  method "preciousblock" None false;
  method "pruneblockchain" None false;
  method "savemempool" None false;
  method "scantxoutset" None false;
  method "verifychain" None false;
  method "verifytxoutproof" None false;
  method "getmemoryinfo" (Some (ArgsArray [unnamed ARG_TYPE_OPT])) true;
  method "getrpcinfo" None true;
  method "help" None true;
  method "logging" (Some (ArgsArray [unnamed ARG_TYPE_OPT; unnamed ARG_TYPE_OPT])) true;
  method "stop" None true;
  method "uptime" None true;
  method "generateblock" None false;
  method "generatetoaddress" None false;
  method "generatetodescriptor" None false;
  method "getblocktemplate" None false;
  method "getmininginfo" None false;
  method "getnetworkhashps" None false;
  method "prioritisetransaction" None false;
  method "submitblock" None false;
  method "submitheader" None false;
  method "addnode" (Some (ArgsArray [required "node"; required "command"])) true;
  method "clearbanned" None false;
  method "disconnectnode" None false;
  method "getaddednodeinfo" (Some (ArgsArray [optional "node"])) true;
  method "getconnectioncount" None true;
  method "getnettotals" None true;
  method "getnetworkinfo" None true;
  method "getnodeaddresses" (Some (ArgsArray [optional "count"])) true;
  method "getpeerinfo" None true;
  method "listbanned" None true;
  method "ping" None true;
  method "setban" (Some (ArgsArray [required "subnet"; required "command"; optional "bantime"; optional "absolute"])) true;
  method "setnetworkactive" (Some (ArgsObject (required "state"))) true;
  method "analyzepsbt" None false;
  method "combinepsbt" None false;
  method "combinerawtransaction" None false;
  method "converttopsbt" None false;
  method "createpsbt" None false;
  method "createrawtransaction" None false;
  method "decodepsbt" None false;
  method "decoderawtransaction" None false;
  method "decodescript" None false;
  method "finalizepsbt" None false;
  method "fundrawtransaction" None false;
  method "getrawtransaction" None false;
  method "joinpsbts" None false;
  method "sendrawtransaction" None false;
  method "signrawtransactionwithkey" None false;
  method "testmempoolaccept" None false;
  method "utxoupdatepsbt" None false;
  method "createmultisig" None false;
  method "deriveaddresses" None false;
  method "estimatesmartfee" None false;
  method "getdescriptorinfo" None false;
  method "getindexinfo" None false;
  method "signmessagewithprivkey" None false;
  method "validateaddress" None false;
  method "verifymessage" None false;
  method "abandontransaction" None false;
  method "abortrescan" None false;
  method "addmultisigaddress" None false;
  method "backupwallet" None false;
  method "bumpfee" None false;
  method "createwallet" None false;
  method "dumpprivkey" None false;
  method "dumpwallet" None false;
  method "encryptwallet" None false;
  method "getaddressesbylabel" None false;
  method "getaddressinfo" None false;
  method "getbalance" None false;
  method "getbalances" None false;
  method "getnewaddress" None false;
  method "getrawchangeaddress" None false;
  method "getreceivedbyaddress" None false;
  method "getreceivedbylabel" None false;
  method "gettransaction" None false;
  method "getunconfirmedbalance" None false;
  method "getwalletinfo" None false;
  method "importaddress" None false;
  method "importdescriptors" None false;
  method "importmulti" None false;
  method "importprivkey" None false;
  method "importprunedfunds" None false;
  method "importpubkey" None false;
  method "importwallet" None false;
  method "keypoolrefill" None false;
  method "listaddressgroupings" None false;
  method "listlabels" None false;
  method "listlockunspent" None false;
  method "listreceivedbyaddress" None false;
  method "listreceivedbylabel" None false;
  method "listsinceblock" None false;
  method "listtransactions" None false;
  method "listunspent" None false;
  method "listwalletdir" None false;
  method "listwallets" None false;
  method "loadwallet" None false;
  method "lockunspent" None false;
  method "psbtbumpfee" None false;
  method "removeprunedfunds" None false;
  method "rescanblockchain" None false;
  method "send" None false;
  method "sendmany" None false;
  method "sendtoaddress" None false;
  method "sethdseed" None false;
  method "setlabel" None false;
  method "settxfee" None false;
  method "setwalletflag" None false;
  method "signmessage" None false;
  method "signrawtransactionwithwallet" None false;
  method "unloadwallet" None false;
  method "upgradewallet" None false;
  method "walletcreatefundedpsbt" None false;
  method "walletlock" None false;
  method "walletpassphrase" None false;
  method "walletpassphrasechange" None false;
  method "walletprocesspsbt" None false
].

End Constants.

(** ** Property lookup on [RPC]

    [RPC] is an object literal, so its prototype is [Object.prototype]:
    [RPC[method]] looks among the own properties first and then among the
    properties every object inherits. *)

Module Runtime.

(** The functions every object inherits from [Object.prototype]; its
    remaining property, [__proto__], is an accessor. *)
Definition Object_prototype_functions : list jsstring :=
  map js [ "constructor"; "__defineGetter__"; "__defineSetter__";
           "hasOwnProperty"; "__lookupGetter__"; "__lookupSetter__";
           "isPrototypeOf"; "propertyIsEnumerable"; "toString";
           "valueOf"; "toLocaleString" ].

(** What [RPC[method]] evaluates to. *)
Inductive property :=
| PUndefined
| PDescriptor (d : Constants.descriptor)
| PFunction (name : jsstring)       (* a built-in function *)
| PObjectPrototype.                 (* the value of the [__proto__] accessor *)

Fixpoint own_property {A : Type} (o : list (jsstring * A)) (k : jsstring)
  : option A :=
  match o with
  | [] => None
  | (k', v) :: o' => if jsstring_eqb k' k then Some v else own_property o' k
  end.

Definition Object_prototype_get (k : jsstring) : property :=
  if jsstring_eqb k (js "__proto__") then PObjectPrototype
  else if existsb (jsstring_eqb k) Object_prototype_functions then PFunction k
  else PUndefined.

Definition RPC_get (k : jsstring) : property :=
  match own_property Constants.RPC k with
  | Some d => PDescriptor d
  | None => Object_prototype_get k
  end.

(** [p.args]: the descriptor's own property; functions and
    [Object.prototype] have no property of that name; reading a property
    of [undefined] throws. *)
Definition get_args (p : property) : completion (option Constants.args_field) :=
  match p with
  | PUndefined => Throw TypeError
  | PDescriptor d => Return (Constants.args d)
  | PFunction _ => Return None
  | PObjectPrototype => Return None
  end.

(** [specifiedArgs.length]: the length of an array, [undefined] ([None])
    on the object of [setnetworkactive], a [TypeError] on [undefined]. *)
Definition get_length (a : option Constants.args_field) : completion (option nat) :=
  match a with
  | None => Throw TypeError
  | Some (Constants.ArgsArray l) => Return (Some (List.length l))
  | Some (Constants.ArgsObject _) => Return None
  end.

End Runtime.

(** ** JavaScript values

    The values that reach [JSON.stringify] and come out of [JSON.parse]:
    [undefined], [null], booleans, numbers, strings, arrays and plain
    objects.  [VNumber] holds the finite numbers; the numbers that are
    not finite are [VNaN] and [VInfinity].  [VObject] lists the own
    enumerable properties of an object, each name once, in the order in
    which JavaScript enumerates them. *)

(** A finite number is kept as the decimal that [Number::toString]
    prints: its sign, the digits [d1 ... dk] of its shortest literal, most
    significant first and without leading or trailing zero, and a power of
    ten; the value is [d1...dk * 10^exponent].  Zero has no digit, and
    either sign: [-0] is the zero whose [negative] is true.  The numbers
    of JavaScript are the binary64 numbers, which are among these
    decimals; the rounding of any other decimal to binary64 is not part
    of the model. *)
Record number := { negative : bool; digits : list N; exponent : Z }.

Definition zero : number := {| negative := false; digits := []; exponent := 0 |}.

(** [-0] *)
Definition negative_zero : number := {| negative := true; digits := []; exponent := 0 |}.

#[local] Unset Elimination Schemes.
Inductive value :=
| VUndefined
| VNull
| VBool (b : bool)
| VNumber (n : number)
| VString (s : jsstring)
| VArray (elements : list value)
| VObject (members : list (jsstring * value))
| VNaN
| VInfinity (negative : bool).
#[local] Set Elimination Schemes.

(** [o.k] on a value.  The members of an object are kept in the order
    [JSON.parse] meets them, and a name that occurs twice denotes its last
    occurrence; arrays, strings, numbers and booleans have no property of
    the names looked up here; [null] and [undefined] throw. *)
Fixpoint last_member (ms : list (jsstring * value)) (k : jsstring) (found : option value)
  : option value :=
  match ms with
  | [] => found
  | (k', v) :: ms' =>
      last_member ms' k (if jsstring_eqb k' k then Some v else found)
  end.

Definition get (o : value) (k : jsstring) : completion value :=
  match o with
  | VUndefined | VNull => Throw TypeError
  | VObject ms =>
      match last_member ms k None with
      | Some v => Return v
      | None => Return VUndefined
      end
  | _ => Return VUndefined
  end.

(** ** JSON *)

Module JSON.

Local Open Scope N_scope.

(** *** Characters *)

Definition is_digit (c : code_unit) : bool := (48 <=? c) && (c <=? 57).
Definition is_ws (c : code_unit) : bool :=
  (c =? 32) || (c =? 9) || (c =? 10) || (c =? 13).

Definition hex_char (d : N) : code_unit := if d <? 10 then 48 + d else 87 + d.

Definition hex_value (c : code_unit) : option N :=
  if (48 <=? c) && (c <=? 57) then Some (c - 48)
  else if (97 <=? c) && (c <=? 102) then Some (c - 87)
  else if (65 <=? c) && (c <=? 70) then Some (c - 55)
  else None.

(** *** Number::toString *)

Definition digit_chars (ds : list N) : jsstring := map (fun d => 48 + d) ds.

Fixpoint list_of_uint (u : Decimal.uint) : list N :=
  match u with
  | Decimal.Nil => []
  | Decimal.D0 u' => 0 :: list_of_uint u'
  | Decimal.D1 u' => 1 :: list_of_uint u'
  | Decimal.D2 u' => 2 :: list_of_uint u'
  | Decimal.D3 u' => 3 :: list_of_uint u'
  | Decimal.D4 u' => 4 :: list_of_uint u'
  | Decimal.D5 u' => 5 :: list_of_uint u'
  | Decimal.D6 u' => 6 :: list_of_uint u'
  | Decimal.D7 u' => 7 :: list_of_uint u'
  | Decimal.D8 u' => 8 :: list_of_uint u'
  | Decimal.D9 u' => 9 :: list_of_uint u'
  end.

Fixpoint uint_of_list (ds : list N) : Decimal.uint :=
  match ds with
  | [] => Decimal.Nil
  | d :: ds' =>
      let u := uint_of_list ds' in
      match d with
      | 0 => Decimal.D0 u | 1 => Decimal.D1 u | 2 => Decimal.D2 u
      | 3 => Decimal.D3 u | 4 => Decimal.D4 u | 5 => Decimal.D5 u
      | 6 => Decimal.D6 u | 7 => Decimal.D7 u | 8 => Decimal.D8 u
      | _ => Decimal.D9 u
      end
  end.

(** The decimal digits of a natural number, ["0"] for zero. *)
Definition decimal (n : N) : jsstring := digit_chars (list_of_uint (N.to_uint n)).

Definition zeros (n : nat) : list N := repeat 0 n.

(** [Number::toString(x, 10)] for a positive [x] with digits [ds] ([k]
    of them) and decimal point after [n] digits. *)
Definition positive_toString (ds : list N) (e : Z) : jsstring :=
  let k := Z.of_nat (List.length ds) in
  let n := (k + e)%Z in
  if ((k <=? n) && (n <=? 21))%Z then
    digit_chars (ds ++ zeros (Z.to_nat (n - k)))
  else if ((0 <? n) && (n <=? 21))%Z then
    digit_chars (firstn (Z.to_nat n) ds) ++ js "." ++ digit_chars (skipn (Z.to_nat n) ds)
  else if ((-6 <? n) && (n <=? 0))%Z then
    js "0." ++ digit_chars (zeros (Z.to_nat (- n)) ++ ds)
  else
    let x := (n - 1)%Z in
    let sign := if (x <? 0)%Z then js "-" else js "+" in
    match ds with
    | [d] => digit_chars [d] ++ js "e" ++ sign ++ decimal (Z.abs_N x)
    | _ => digit_chars (firstn 1 ds) ++ js "." ++ digit_chars (skipn 1 ds)
             ++ js "e" ++ sign ++ decimal (Z.abs_N x)
    end.

Definition Number_toString (x : number) : jsstring :=
  match digits x with
  | [] => js "0"
  | ds => (if negative x then js "-" else []) ++ positive_toString ds (exponent x)
  end.

(** *** QuoteJSONString *)

Definition is_leading_surrogate (c : code_unit) : bool := (55296 <=? c) && (c <=? 56319).
Definition is_trailing_surrogate (c : code_unit) : bool := (56320 <=? c) && (c <=? 57343).

(** [\uXXXX], four lower-case hexadecimal digits. *)
Definition UnicodeEscape (c : code_unit) : jsstring :=
  js "\u" ++ [ hex_char (c / 4096); hex_char ((c / 256) mod 16);
               hex_char ((c / 16) mod 16); hex_char (c mod 16) ].

Definition quote_unit (c : code_unit) : jsstring :=
  if c =? 8 then js "\b"
  else if c =? 9 then js "\t"
  else if c =? 10 then js "\n"
  else if c =? 12 then js "\f"
  else if c =? 13 then js "\r"
  else if c =? 34 then [92; 34]
  else if c =? 92 then [92; 92]
  else if c <? 32 then UnicodeEscape c
  else [c].

(** The string is read code point by code point: a leading surrogate
    followed by a trailing one is copied, a surrogate on its own is
    escaped. *)
Fixpoint quote_units (s : jsstring) : jsstring :=
  match s with
  | [] => []
  | c :: r =>
      if is_leading_surrogate c then
        match r with
        | c' :: r' =>
            if is_trailing_surrogate c' then c :: c' :: quote_units r'
            else UnicodeEscape c ++ quote_units r
        | [] => UnicodeEscape c
        end
      else if is_trailing_surrogate c then UnicodeEscape c ++ quote_units r
      else quote_unit c ++ quote_units r
  end.

Definition QuoteJSONString (s : jsstring) : jsstring := 34 :: quote_units s ++ [34].

(** *** JSON.stringify

    [SerializeJSONProperty] with no replacer and an empty gap (the
    [null, 0] of the call): [None] is [undefined].  An array element
    that serializes to [undefined] is written [null]; an object member
    that does is left out. *)

Fixpoint join (sep : jsstring) (parts : list jsstring) : jsstring :=
  match parts with
  | [] => []
  | [p] => p
  | p :: ps => p ++ sep ++ join sep ps
  end.

Fixpoint SerializeJSONProperty (v : value) : option jsstring :=
  match v with
  | VUndefined => None
  | VNull => Some (js "null")
  | VBool true => Some (js "true")
  | VBool false => Some (js "false")
  | VNumber n => Some (Number_toString n)
  | VNaN | VInfinity _ => Some (js "null")
  | VString s => Some (QuoteJSONString s)
  | VArray l =>
      Some (js "[" ++
            join (js ",")
              (map (fun e => match SerializeJSONProperty e with
                             | Some t => t
                             | None => js "null"
                             end) l)
            ++ js "]")
  | VObject ms =>
      Some (js "{" ++
            join (js ",")
              (flat_map (fun m => match SerializeJSONProperty (snd m) with
                                  | Some t => [QuoteJSONString (fst m) ++ js ":" ++ t]
                                  | None => []
                                  end) ms)
            ++ js "}")
  end.

(** The text of an array element and the texts (one or none) of an object
    member, as [SerializeJSONProperty] writes them. *)
Definition element_text (e : value) : jsstring :=
  match SerializeJSONProperty e with
  | Some t => t
  | None => js "null"
  end.

Definition member_text (m : jsstring * value) : list jsstring :=
  match SerializeJSONProperty (snd m) with
  | Some t => [QuoteJSONString (fst m) ++ js ":" ++ t]
  | None => []
  end.

Definition stringify (v : value) : option jsstring := SerializeJSONProperty v.

(** *** JSON.parse

    The grammar of ECMA-404.  Each function returns what it read and the
    text left; [None] is a [SyntaxError]. *)

(** [accept c s]: [s] without its first code unit, if that is [c]. *)
Definition accept (c : code_unit) (s : jsstring) : option jsstring :=
  match s with
  | c' :: r => if c' =? c then Some r else None
  | [] => None
  end.

Fixpoint skip_ws (s : jsstring) : jsstring :=
  match s with
  | c :: r => if is_ws c then skip_ws r else s
  | [] => []
  end.

Fixpoint span_digits (s : jsstring) : list N * jsstring :=
  match s with
  | c :: r =>
      if is_digit c then let (ds, r') := span_digits r in ((c - 48) :: ds, r')
      else ([], s)
  | [] => ([], [])
  end.

Fixpoint strip_zeros (ds : list N) : list N :=
  match ds with
  | 0 :: ds' => strip_zeros ds'
  | _ => ds
  end.

(** The number with digits [ds] (zeros allowed at both ends) times
    [10^e]; a literal of zero keeps its sign.  The literal is read
    exactly.  [JSON.parse] rounds it to binary64, which gives the same
    number on every literal that [Number::toString] prints; on a literal
    with more digits than identify a binary64, or out of its range, the
    two differ. *)
Definition make_number (neg : bool) (ds : list N) (e : Z) : number :=
  let lead := strip_zeros ds in
  let sig := rev (strip_zeros (rev lead)) in
  match sig with
  | [] => {| negative := neg; digits := []; exponent := 0 |}
  | _ => {| negative := neg; digits := sig;
            exponent := e + Z.of_nat (List.length lead - List.length sig) |}
  end.

Definition parse_int (s : jsstring) : option (list N * jsstring) :=
  match s with
  | c :: r =>
      if c =? 48 then Some ([0], r)
      else if is_digit c then let (ds, r') := span_digits r in Some ((c - 48) :: ds, r')
      else None
  | [] => None
  end.

Definition parse_frac (s : jsstring) : option (list N * jsstring) :=
  match accept 46 s with
  | Some r =>
      match span_digits r with
      | ([], _) => None
      | (ds, r') => Some (ds, r')
      end
  | None => Some ([], s)
  end.

Definition parse_exp (s : jsstring) : option (Z * jsstring) :=
  match (match accept 101 s with
         | Some r => Some r
         | None => accept 69 s
         end) with
  | Some r =>
      let (neg, r1) :=
        match accept 43 r with
        | Some r1 => (false, r1)
        | None =>
            match accept 45 r with
            | Some r1 => (true, r1)
            | None => (false, r)
            end
        end in
      match span_digits r1 with
      | ([], _) => None
      | (ds, r') =>
          let x := Z.of_N (N.of_uint (uint_of_list ds)) in
          Some (if neg then (- x)%Z else x, r')
      end
  | None => Some (0%Z, s)
  end.

(** A number without its sign. *)
Definition parse_unsigned (neg : bool) (s : jsstring) : option (number * jsstring) :=
  match parse_int s with
  | None => None
  | Some (int, s2) =>
      match parse_frac s2 with
      | None => None
      | Some (frac, s3) =>
          match parse_exp s3 with
          | None => None
          | Some (x, s4) =>
              Some (make_number neg (int ++ frac) (x - Z.of_nat (List.length frac)), s4)
          end
      end
  end.

Definition parse_number (s : jsstring) : option (number * jsstring) :=
  match accept 45 s with
  | Some r => parse_unsigned true r
  | None => parse_unsigned false s
  end.

Definition prepend (c : code_unit) (r : option (jsstring * jsstring))
  : option (jsstring * jsstring) :=
  match r with
  | Some (t, r') => Some (c :: t, r')
  | None => None
  end.

(** The characters of a string after its opening quote, up to and
    including the closing one. *)
Fixpoint parse_string_body (s : jsstring) : option (jsstring * jsstring) :=
  match s with
  | [] => None
  | c :: r =>
      if c =? 34 then Some ([], r)
      else if c =? 92 then
        match r with
        | [] => None
        | e :: r1 =>
            if e =? 117 then
              match r1 with
              | h3 :: h2 :: h1 :: h0 :: r2 =>
                  match hex_value h3, hex_value h2, hex_value h1, hex_value h0 with
                  | Some a, Some b, Some c', Some d =>
                      prepend (4096 * a + 256 * b + 16 * c' + d) (parse_string_body r2)
                  | _, _, _, _ => None
                  end
              | _ => None
              end
            else if e =? 34 then prepend 34 (parse_string_body r1)
            else if e =? 92 then prepend 92 (parse_string_body r1)
            else if e =? 47 then prepend 47 (parse_string_body r1)
            else if e =? 98 then prepend 8 (parse_string_body r1)
            else if e =? 102 then prepend 12 (parse_string_body r1)
            else if e =? 110 then prepend 10 (parse_string_body r1)
            else if e =? 114 then prepend 13 (parse_string_body r1)
            else if e =? 116 then prepend 9 (parse_string_body r1)
            else None
        end
      else if c <? 32 then None
      else prepend c (parse_string_body r)
  end.

(** [expect t s]: [s] without its prefix [t]. *)
Fixpoint expect (t s : jsstring) : option jsstring :=
  match t, s with
  | [], _ => Some s
  | a :: t', b :: s' => if a =? b then expect t' s' else None
  | _ :: _, [] => None
  end.

Definition literal (t : jsstring) (v : value) (s : jsstring) : option (value * jsstring) :=
  match expect t s with
  | Some r => Some (v, r)
  | None => None
  end.

(** A value, after optional white space.  [fuel] bounds the nesting and
    the number of elements; [parse] below provides enough of it. *)
Fixpoint parse_value (fuel : nat) (s : jsstring) : option (value * jsstring) :=
  match fuel with
  | O => None
  | S fuel' =>
      match skip_ws s with
      | [] => None
      | c :: r =>
          if c =? 123 then
            match accept 125 (skip_ws r) with
            | Some r' => Some (VObject [], r')
            | None =>
                match parse_members fuel' r with
                | Some (ms, r') => Some (VObject ms, r')
                | None => None
                end
            end
          else if c =? 91 then
            match accept 93 (skip_ws r) with
            | Some r' => Some (VArray [], r')
            | None =>
                match parse_elements fuel' r with
                | Some (vs, r') => Some (VArray vs, r')
                | None => None
                end
            end
          else if c =? 34 then
            match parse_string_body r with
            | Some (t, r') => Some (VString t, r')
            | None => None
            end
          else if c =? 116 then literal (js "rue") (VBool true) r
          else if c =? 102 then literal (js "alse") (VBool false) r
          else if c =? 110 then literal (js "ull") VNull r
          else
            match parse_number (c :: r) with
            | Some (n, r') => Some (VNumber n, r')
            | None => None
            end
      end
  end

(** The elements of an array after its opening bracket, up to and
    including the closing one; at least one element. *)
with parse_elements (fuel : nat) (s : jsstring) : option (list value * jsstring) :=
  match fuel with
  | O => None
  | S fuel' =>
      match parse_value fuel' s with
      | None => None
      | Some (v, r) =>
          match accept 44 (skip_ws r) with
          | Some r' =>
              match parse_elements fuel' r' with
              | Some (vs, r'') => Some (v :: vs, r'')
              | None => None
              end
          | None =>
              match accept 93 (skip_ws r) with
              | Some r' => Some ([v], r')
              | None => None
              end
          end
      end
  end

(** The members of an object after its opening brace, up to and
    including the closing one; at least one member.  They are kept as the
    text has them.  In the object that [JSON.parse] builds a name met
    again replaces the value of the earlier one, and the names that are
    array indices are enumerated first: [get] reads the last occurrence
    of a name, as the object does, and on a text with distinct names in
    the order of enumeration, as [JSON.stringify] writes them, the list is
    that of the object. *)
with parse_members (fuel : nat) (s : jsstring)
  : option (list (jsstring * value) * jsstring) :=
  match fuel with
  | O => None
  | S fuel' =>
      match accept 34 (skip_ws s) with
      | None => None
      | Some r0 =>
          match parse_string_body r0 with
          | None => None
          | Some (k, r1) =>
              match accept 58 (skip_ws r1) with
              | None => None
              | Some r2 =>
                  match parse_value fuel' r2 with
                  | None => None
                  | Some (v, r3) =>
                      match accept 44 (skip_ws r3) with
                      | Some r4 =>
                          match parse_members fuel' r4 with
                          | Some (ms, r5) => Some ((k, v) :: ms, r5)
                          | None => None
                          end
                      | None =>
                          match accept 125 (skip_ws r3) with
                          | Some r4 => Some ([(k, v)], r4)
                          | None => None
                          end
                      end
                  end
              end
          end
      end
  end.

(** [JSON.parse(text)]: one value, white space around it, nothing
    else. *)
Definition parse (text : jsstring) : completion value :=
  match parse_value (2 * List.length text + 1) text with
  | Some (v, r) =>
      match skip_ws r with
      | [] => Return v
      | _ :: _ => Throw SyntaxError
      end
  | None => Throw SyntaxError
  end.

End JSON.

(** Sequencing of completions: the first exception thrown ends the
    evaluation. *)
Definition bind {A B : Type} (c : completion A) (k : A -> completion B) : completion B :=
  match c with
  | Return a => k a
  | Throw e => Throw e
  end.

Notation "x <- c ;; k" := (bind c (fun x => k))
  (at level 61, c at next level, right associativity).

(** ** helper.js *)

Module Helper.

(** [RPC[method] !== undefined] *)
Definition isKnownMethod (method : jsstring) : bool :=
  match Runtime.RPC_get method with
  | Runtime.PUndefined => false
  | _ => true
  end.

(** [a !== b] of an array length and of a [length] property that may be
    [undefined]. *)
Definition strict_not_equal (a : nat) (b : option nat) : bool :=
  match b with
  | Some b' => negb (Nat.eqb a b')
  | None => true
  end.

Definition isValidArgsForMethod (method : jsstring) (args : list value)
  : completion bool :=
  if negb (isKnownMethod method) then Return false
  else
    specifiedArgs <- Runtime.get_args (Runtime.RPC_get method) ;;
    specifiedLength <- Runtime.get_length specifiedArgs ;;
    if strict_not_equal (List.length args) specifiedLength then Return false
    else Return false.

End Helper.

(** ** BitcoinClient.js *)

Module BitcoinClient.

Record client := {
  RPC_HOST : jsstring;
  RPC_PORT : N;
  RPC_USER : jsstring;
  RPC_PASSWORD : jsstring
}.

(** [new Error(message)] *)
Record Error := { message : jsstring }.

(** A promise settles once: [resolve] and [reject] do nothing on a
    promise that is no longer pending. *)
Inductive promise :=
| Pending
| Fulfilled (v : value)
| Rejected (e : Error).

Definition resolve (v : value) (p : promise) : promise :=
  match p with
  | Pending => Fulfilled v
  | _ => p
  end.

Definition reject (e : Error) (p : promise) : promise :=
  match p with
  | Pending => Rejected e
  | _ => p
  end.

(** The options object given to [http.request]. *)
Record request_options := {
  auth : jsstring;
  host : jsstring;
  port : N;
  method : jsstring;
  headers : list (jsstring * jsstring)
}.

(** What the call does on the network, in order. *)
Inductive network_operation :=
| http_request (options : request_options)
| req_write (data : jsstring)
| req_end.

(** The response the callback of [http.request] receives: its status
    code and the chunks of its ['data'] events, in order, each already
    converted to a string as [JSON.parse] and the template literal
    do. *)
Record IncomingMessage := { statusCode : N; data : list jsstring }.

(** The transport: the response to a request with given options and
    body.  A request that fails or is never answered does not run the
    callback, and the call has no ['error'] listener: such a request
    leaves the promise pending and is not described here, where every
    request gets a response. *)
Definition transport := request_options -> jsstring -> IncomingMessage.

Definition client_error (method : jsstring) (status : N) : Error :=
  {| message := js "[Client error] Failed to request method '" ++ method
                  ++ js "' with status code '" ++ JSON.decimal status ++ js "'" |}.

Definition server_error (method : jsstring) (status : N) : Error :=
  {| message := js "[Server error] Failed to request method '" ++ method
                  ++ js "' with status code '" ++ JSON.decimal status ++ js "'" |}.

Definition parse_error (chunk : jsstring) : Error :=
  {| message := js "failed to parse response '" ++ chunk ++ js "'." |}.

Definition unknown_method : Error := {| message := js "unknown method" |}.

(** The listener of ['data']: the [try] block parses the chunk and reads
    [result]; whatever it throws is caught. *)
Definition on_data (chunk : jsstring) (p : promise) : promise :=
  match (response <- JSON.parse chunk ;; get response (js "result")) with
  | Return result => resolve result p
  | Throw _ => reject (parse_error chunk) p
  end.

(** The callback of [http.request]: the status checks, then one run of
    the listener per chunk. *)
Definition on_response (method : jsstring) (res : IncomingMessage) (p : promise)
  : promise :=
  let p' :=
    if (400 <? statusCode res)%N && (statusCode res <? 500)%N then
      reject (client_error method (statusCode res)) p
    else if (500 <? statusCode res)%N && (statusCode res <? 600)%N then
      reject (server_error method (statusCode res)) p
    else p in
  fold_left (fun q chunk => on_data chunk q) (data res) p'.

(** The object literal that is serialized. *)
Definition envelope (method : jsstring) (args : list value) : value :=
  VObject [ (js "jsonrpc", VString (js "1.0"));
            (js "id", VString (js "curltest"));
            (js "method", VString method);
            (js "params", VArray args) ].

(** [JSON.stringify] returns a string on every object. *)
Definition dataBinary (method : jsstring) (args : list value) : jsstring :=
  match JSON.stringify (envelope method args) with
  | Some text => text
  | None => []
  end.

Definition options (this : client) : request_options :=
  {| auth := RPC_USER this ++ js ":" ++ RPC_PASSWORD this;
     host := RPC_HOST this;
     port := RPC_PORT this;
     method := js "POST";
     headers := [ (js "Content-type", js "text/plain") ] |}.

(** The promise a call returns, once the response has been delivered,
    and what the call did on the network. *)
Record outcome := { result : promise; network : list network_operation }.

Definition __send (this : client) (net : transport)
           (method : jsstring) (args : list value) : outcome :=
  if negb (Helper.isKnownMethod method) then
    {| result := Rejected unknown_method; network := [] |}
  else
    let dataBinary := dataBinary method args in
    let res := net (options this) dataBinary in
    {| result := on_response method res Pending;
       network := [ http_request (options this); req_write dataBinary; req_end ] |}.

End BitcoinClient.

(** ** Transport stubs

    A transport that answers every request with the same status and the
    same chunks, and the bodies the properties below are stated on. *)

Module Stub.

Import BitcoinClient.

(** The client of the README. *)
Definition readme_client : client :=
  {| RPC_HOST := js "192.168.0.100"; RPC_PORT := 8332;
     RPC_USER := js "some_user"; RPC_PASSWORD := js "some_secure_pw" |}.

Definition returning (status : N) (chunks : list jsstring) : transport :=
  fun _ _ => {| statusCode := status; data := chunks |}.

Definition body_result_42 : jsstring := json "{'result': 42, 'error': null}".

Definition body_error_5 : jsstring :=
  json "{'result': null, 'error': {'code': -5, 'message': 'not found'}}".

Definition forty_two : value :=
  VNumber {| negative := false; digits := [4; 2]%N; exponent := 0 |}.

Definition minus_five : value :=
  VNumber {| negative := true; digits := [5]%N; exponent := 0 |}.

End Stub.

(** The statuses at which the callback neither rejects as a client error
    nor as a server error. *)
Definition passes_status_checks (status : N) : bool :=
  negb ((400 <? status)%N && (status <? 500)%N)
  && negb ((500 <? status)%N && (status <? 600)%N).

(** ** Values as JSON sees them *)

(** The invariants of the representation: a code unit is below 2^16; the
    digits of a number are decimal digits, the first and the last of them
    are not zero, and a zero has the exponent 0. *)
Definition wf_string (s : jsstring) : bool := forallb (fun c => (c <? 65536)%N) s.

Definition wf_digits (ds : list N) : bool :=
  forallb (fun d => (d <? 10)%N) ds
  && negb (hd 0%N ds =? 0)%N && negb (last ds 0%N =? 0)%N.

Definition wf_number (x : number) : bool :=
  match digits x with
  | [] => (exponent x =? 0)%Z
  | ds => wf_digits ds
  end.

(** [-0] *)
Definition is_negative_zero (x : number) : bool :=
  match digits x with
  | [] => negative x
  | _ => false
  end.

(** What a finite number becomes on the wire: [-0] is written ["0"]. *)
Definition number_image (x : number) : number :=
  match digits x with
  | [] => {| negative := false; digits := []; exponent := exponent x |}
  | _ => x
  end.

Fixpoint well_formed (v : value) : bool :=
  match v with
  | VNumber n => wf_number n
  | VString s => wf_string s
  | VArray l => forallb well_formed l
  | VObject ms => forallb (fun m => wf_string (fst m) && well_formed (snd m)) ms
  | _ => true
  end.

(** A value in which [undefined], [NaN], the infinities and [-0] do not
    occur. *)
Fixpoint is_json (v : value) : bool :=
  match v with
  | VUndefined | VNaN | VInfinity _ => false
  | VNumber n => negb (is_negative_zero n)
  | VArray l => forallb is_json l
  | VObject ms => forallb (fun m => is_json (snd m)) ms
  | _ => true
  end.

(** What a value becomes on the wire: an [undefined] element of an array
    becomes [null], an [undefined] member of an object disappears, [NaN]
    and the infinities become [null], [-0] becomes [0], and everything
    else stays. *)
Fixpoint json_image (v : value) : value :=
  match v with
  | VNaN | VInfinity _ => VNull
  | VNumber n => VNumber (number_image n)
  | VArray l =>
      VArray (map (fun e => match e with
                            | VUndefined => VNull
                            | _ => json_image e
                            end) l)
  | VObject ms =>
      VObject (flat_map (fun m => match snd m with
                                  | VUndefined => []
                                  | _ => [(fst m, json_image (snd m))]
                                  end) ms)
  | _ => v
  end.

Definition element_image (e : value) : value :=
  match e with
  | VUndefined => VNull
  | _ => json_image e
  end.

Definition member_image (m : jsstring * value) : list (jsstring * value) :=
  match snd m with
  | VUndefined => []
  | _ => [(fst m, json_image (snd m))]
  end.

(** The fuel [JSON.parse_value] needs to read back the text of a value. *)
Fixpoint weight (v : value) : nat :=
  match v with
  | VArray l => S (fold_right (fun e n => S (weight e + n)) O l)
  | VObject ms =>
      S (fold_right (fun m n => match snd m with
                                | VUndefined => n
                                | _ => S (weight (snd m) + n)
                                end) O ms)
  | _ => 1
  end.

(** [head_is p s]: [s] starts with a code unit on which [p] holds. *)
Definition head_is (p : code_unit -> bool) (s : jsstring) : bool :=
  match s with
  | c :: _ => p c
  | [] => false
  end.

(** A text before which the literal of a number ends: it does not start
    with a digit, a point or an exponent mark. *)
Definition ends_number (rest : jsstring) : bool :=
  negb (head_is (fun c => JSON.is_digit c || (c =? 46) || (c =? 101) || (c =? 69))%N rest).

(** A text before which the text of a value ends: the end, a comma, a
    closing bracket or a closing brace. *)
Definition ends_value (rest : jsstring) : bool :=
  match rest with
  | [] => true
  | c :: _ => ((c =? 44) || (c =? 93) || (c =? 125))%N
  end.

(** The code units a value can start with. *)
Definition starts_value (c : code_unit) : bool :=
  (JSON.is_digit c || (c =? 45) || (c =? 34) || (c =? 91) || (c =? 123)
   || (c =? 116) || (c =? 102) || (c =? 110))%N.

(** [reads_back v]: the text of [v] followed by the end of a value parses,
    with enough fuel, to the image of [v], and the rest is left. *)
Definition reads_back (v : value) : Prop :=
  well_formed v = true ->
  forall t, JSON.SerializeJSONProperty v = Some t ->
  forall (fuel : nat) (rest : jsstring),
    weight v <= fuel -> ends_value rest = true ->
    JSON.parse_value fuel (t ++ rest) = Some (json_image v, rest).

(** ** The methods of the class

    Every method after [__send] has the shape
    [name(p1, p2 = d2, ...) { return this.__send('method', [p1, p2, ...]) }]:
    it passes the array of its parameters, in order, and with no
    parameter it passes the method name alone, so that [__send] takes
    its default, the empty array. *)

Module Methods.

Import BitcoinClient.

(** [new BitcoinClient({host, port, user, password})] *)
Definition constructor (host : jsstring) (port : N) (user password : jsstring)
  : client :=
  {| RPC_HOST := host; RPC_PORT := port;
     RPC_USER := user; RPC_PASSWORD := password |}.

(** A parameter and its default value, if it has one. *)
Record parameter := { pname : string; default : option value }.

(** A method: its name, the string it gives to [__send] and its
    parameters. *)
Record class_method := {
  wname : jsstring;
  wmethod : jsstring;
  parameters : list parameter
}.

Definition param (n : string) : parameter := {| pname := n; default := None |}.
Definition param_default (n : string) (d : value) : parameter :=
  {| pname := n; default := Some d |}.
Definition wrapper (n m : string) (ps : list parameter) : class_method :=
  {| wname := js n; wmethod := js m; parameters := ps |}.

(** The literals that occur as defaults. *)
Definition integer (ds : list N) : value :=
  VNumber {| negative := false; digits := ds; exponent := 0 |}.
Definition ten : value :=
  VNumber {| negative := false; digits := [1%N]; exponent := 1 |}.
Definition one_tenth : value :=
  VNumber {| negative := false; digits := [1%N]; exponent := -1 |}.
Definition empty_string : value := VString [].

Local Open Scope N_scope.

(** The methods, in source order. *)
Definition methods : list class_method := [
  wrapper "getbestblockhash" "getbestblockhash" [];
  wrapper "getblock" "getblock"
    [param "blockHash"; param_default "verbosity" (integer [1])];
  wrapper "getblockchaininfo" "getblockchaininfo" [];
  wrapper "getblockcount" "getblockcount" [];
  wrapper "getblockfilter" "getblockfilter"
    [param "blockHash"; param "filterType"];
  wrapper "getblockhash" "getblockhash" [param "height"];
  wrapper "getblockheader" "getblockheader"
    [param "blockhash"; param "verbose"];
  wrapper "getblockstats" "getblockstats"
    [param "hash_or_height"; param "stats"];
  wrapper "getchaintips" "getchaintips" [];
  wrapper "getchaintxstats" "getchaintxstats"
    [param "nblocks"; param "blockhash"];
  wrapper "getdifficulty" "getdifficulty" [];
  wrapper "getmempoolancestors" "getmempoolancestors"
    [param "txid"; param_default "verbose" (VBool false)];
  wrapper "getmempooldescendants" "getmempooldescendants"
    [param "txid"; param_default "verbose" (VBool false)];
  wrapper "getmempoolentry" "getmempoolentry" [param "txid"];
  wrapper "getmempoolinfo" "getmempoolinfo" [];
  wrapper "getrawmempool" "getrawmempool"
    [param_default "verbose" (VBool false);
     param_default "mempool_sequence" (VBool false)];
  wrapper "gettxout" "gettxout"
    [param "txid"; param "n"; param_default "include_mempool" (VBool true)];
  wrapper "gettxoutproof" "gettxoutproof" [param "txids"; param "blockhash"];
  wrapper "gettxoutsetinfo" "gettxoutsetinfo" [param "hash_type"];
  wrapper "preciousblock" "preciousblock" [param "blockhash"];
  wrapper "pruneblockchain" "pruneblockchain" [param "height"];
  wrapper "savemempool" "savemempool" [];
  wrapper "scantxoutset" "scantxoutset" [param "action"; param "scanobjects"];
  wrapper "verifychain" "verifychain"
    [param_default "checklevel" (integer [3]);
     param_default "nblocks" (integer [6])];
  wrapper "verifytxoutproof" "verifytxoutproof" [param "proof"];
  wrapper "getmemoryinfo" "getmemoryinfo" [param "mode"];
  wrapper "getrpcinfo" "getrpcinfo" [];
  wrapper "help" "help" [param "command"];
  wrapper "logging" "logging" [param "include"; param "exclude"];
  wrapper "stop" "stop" [];
  wrapper "uptime" "uptime" [];
  wrapper "generateblock" "generateblock"
    [param "output"; param "transactions"];
  wrapper "generatetoaddress" "generatetoaddress"
    [param "nblocks"; param "address"; param "maxtries"];
  wrapper "generatetodescriptor" "generatetodescriptor"
    [param "num_blocks"; param "descriptor"; param "maxtries"];
  wrapper "getblocktemplate" "getblocktemplate" [param "template_request"];
  wrapper "getmininginfo" "getmininginfo" [];
  wrapper "getnetworkhashps" "getnetworkhashps"
    [param "nblocks"; param "height"];
  wrapper "prioritisetransaction" "prioritisetransaction"
    [param "txid"; param "dummy"; param "fee_delta"];
  wrapper "submitblock" "submitblock" [param "hexdata"; param "dummy"];
  wrapper "submitheader" "submitheader" [param "hexdata"];
  wrapper "addnode" "addnode" [param "node"; param "command"];
  wrapper "clearbanned" "clearbanned" [];
  wrapper "disconnectnode" "disconnectnode" [param "address"; param "nodeid"];
  wrapper "getaddednodeinfo" "getaddednodeinfo" [param "node"];
  wrapper "getconnectioncount" "getconnectioncount" [];
  wrapper "getnettotals" "getnettotals" [];
  wrapper "getnetworkinfo" "getnetworkinfo" [];
  wrapper "getnodeaddresses" "getnodeaddresses" [param "count"];
  wrapper "getpeerinfo" "getpeerinfo" [];
  wrapper "listbanned" "listbanned" [];
  wrapper "ping" "ping" [];
  wrapper "setban" "setban"
    [param "subnet"; param "command"; param "bantime"; param "absolute"];
  wrapper "setnetworkactive" "setnetworkactive" [param "state"];
  wrapper "analyzepsbt" "analyzepsbt" [param "psbt"];
  wrapper "combinepsbt" "combinepsbt" [param "tsx"];
  wrapper "combinerawtransaction" "combinerawtransaction" [param "txs"];
  wrapper "converttopsbt" "converttopsbt"
    [param "hexstring"; param_default "permitsigdata" (VBool false);
     param "iswitness"];
  wrapper "createpsbt" "createpsbt"
    [param "inputs"; param "outputs"; param_default "locktime" (integer []);
     param_default "replaceable" (VBool false)];
  wrapper "createrawtransaction" "createrawtransaction"
    [param "inputs"; param "outputs"; param_default "locktime" (integer []);
     param "replaceable"];
  wrapper "decodepsbt" "decodepsbt" [param "psbt"];
  wrapper "decoderawtransaction" "decoderawtransaction"
    [param "hexstring"; param "iswitness"];
  wrapper "decodescript" "decodescript" [param "hexstring"];
  wrapper "finalizepsbt" "finalizepsbt"
    [param "psbt"; param_default "extract" (VBool true)];
  wrapper "fundrawtransaction" "fundrawtransaction"
    [param "hexstring"; param "options"; param "iswitness"];
  wrapper "getrawtransaction" "getrawtransaction"
    [param "txid"; param_default "verbose" (VBool false); param "blockhash"];
  wrapper "joinpsbts" "joinpsbts" [param "txs"];
  wrapper "sendrawtransaction" "sendrawtransaction"
    [param "hexstring"; param_default "maxfeerate" one_tenth];
  wrapper "signrawtransactionwithkey" "signrawtransactionwithkey"
    [param "hexstring"; param "privatekeysm"; param "prevtxs";
     param_default "sighashtype" (VString (js "ALL"))];
  wrapper "testmempoolaccept" "testmempoolaccept"
    [param "rawtxs"; param_default "maxfeerate" one_tenth];
  wrapper "utxoupdatepsbt" "utxoupdatepsbt"
    [param "psbt"; param "descriotors"];
  wrapper "createmultisig" "createmultisig"
    [param "nrequired"; param "keys";
     param_default "address_type" (VString (js "legacy"))];
  wrapper "deriveaddresses" "deriveaddresses"
    [param "descriptor"; param "range"];
  wrapper "estimatesmartfee" "estimatesmartfee"
    [param "conf_target"; param "estimate_mode"];
  wrapper "getdescriptorinfo" "getdescriptorinfo" [param "descriptor"];
  wrapper "getindexinfo" "getindexinfo" [param "index_name"];
  wrapper "signmessagewithprivkey" "signmessagewithprivkey"
    [param "privkey"; param "message"];
  wrapper "validateaddress" "validateaddress" [param "address"];
  wrapper "verifymessage" "verifymessage"
    [param "address"; param "signature"; param "message"];
  wrapper "abandontransaction" "abandontransaction" [param "txid"];
  wrapper "abortrescan" "abortrescan" [];
  wrapper "addmultisigaddress" "addmultisigaddress"
    [param "nrequired"; param "keys"; param "label"; param "address_type"];
  wrapper "backupwallet" "backupwallet" [param "destination"];
  wrapper "bumpfee" "bumpfee" [param "txid"; param "options"];
  wrapper "createwallet" "createwallet"
    [param "wallet_name"; param_default "disable_private_keys" (VBool false);
     param_default "blank" (VBool false); param "passphrase";
     param_default "avoid_reuse" (VBool false);
     param_default "descriptor" (VBool false); param "load_on_startup"];
  wrapper "dumpprivkey" "dumpprivkey" [param "address"];
  wrapper "dumpwallet" "dumpwallet" [param "filename"];
  wrapper "encryptwallet" "encryptwallet" [param "passphrase"];
  wrapper "getaddressesbylabel" "getaddressesbylabel" [param "label"];
  wrapper "getaddressinfo" "getaddressinfo" [param "address"];
  wrapper "getbalance" "getbalance"
    [param "dummy"; param_default "minconf" (integer []);
     param_default "include_watchonly" (VBool true);
     param_default "avoid_reuse" (VBool true)];
  wrapper "getbalances" "getbalances" [];
  wrapper "getnewaddress" "getnewaddress"
    [param "label"; param "address_type"];
  wrapper "getrawchangeaddress" "getrawchangeaddress" [param "address_type"];
  wrapper "getreceivedbyaddress" "getreceivedbyaddress"
    [param "address"; param_default "minconf" (integer [1])];
  wrapper "getreceivedbylabel" "getreceivedbylabel"
    [param "label"; param "minconf"];
  wrapper "gettransaction" "gettransaction"
    [param "txid"; param_default "include_watchonly" (VBool true);
     param_default "verbose" (VBool false)];
  wrapper "getunconfirmedbalance" "getunconfirmedbalance" [];
  wrapper "getwalletinfo" "getwalletinfo" [];
  wrapper "importaddress" "importaddress"
    [param "address"; param_default "label" empty_string;
     param_default "rescan" (VBool true); param_default "p2sh" (VBool false)];
  wrapper "importdescriptors" "importdescriptors" [param "requests"];
  wrapper "importmulti" "importmulti" [param "requests"; param "options"];
  wrapper "importprivkey" "importprivkey"
    [param "privkey"; param "label"; param "rescan"];
  wrapper "importprunedfunds" "importprunedfunds"
    [param "rawtransaction"; param "txoutproof"];
  wrapper "importpubkey" "importpubkey"
    [param "pubkey"; param_default "label" empty_string;
     param_default "rescan" (VBool true)];
  wrapper "importwallet" "importwallet" [param "filename"];
  wrapper "keypoolrefill" "keypoolrefill" [param "newsize"];
  wrapper "listaddressgroupings" "listaddressgroupings" [];
  wrapper "listlabels" "listlabels" [param "purpose"];
  wrapper "listlockunspent" "listlockunspent" [];
  wrapper "listreceivedbyaddress" "listreceivedbyaddress"
    [param_default "minconf" (integer [1]);
     param_default "include_empty" (VBool false);
     param_default "include_watchonly" (VBool true); param "address_filter"];
  wrapper "listreceivedbylabel" "listreceivedbylabel"
    [param_default "minconf" (integer [1]);
     param_default "include_empty" (VBool false);
     param_default "include_watchonly" (VBool true)];
  wrapper "listsinceblock" "listsinceblock"
    [param "blockhash"; param_default "target_comfirmations" (integer [1]);
     param_default "include_watchonly" (VBool true);
     param_default "include_removed" (VBool true)];
  wrapper "listtransactions" "listtransactions"
    [param "label"; param_default "count" ten;
     param_default "skip" (integer []);
     param_default "include_watchonly" (VBool true)];
  wrapper "listunspent" "listunspent"
    [param_default "minconf" (integer [1]);
     param_default "maxconf" (integer [9; 9; 9; 9; 9; 9; 9]);
     param_default "addresses" (VArray []);
     param_default "include_unsafe" (VBool true); param "query_options"];
  wrapper "listwalletdir" "listwalletdir" [];
  wrapper "listwallets" "listwallets" [];
  wrapper "loadwallet" "loadwallet"
    [param "filename"; param "load_on_startup"];
  wrapper "lockunspent" "lockunspent" [param "unlock"; param "transactions"];
  wrapper "psbtbumpfee" "psbtbumpfee" [param "txid"; param "options"];
  wrapper "removeprunedfunds" "removeprunedfunds" [param "txid"];
  wrapper "rescanblockchain" "rescanblockchain"
    [param "start_height"; param "stop_height"];
  wrapper "send" "send"
    [param "outputs"; param "conf_target";
     param_default "estimate_mode" (VString (js "unset")); param "fee_rate";
     param "options"];
  wrapper "sendmany" "sendmany"
    [param_default "dummy" empty_string; param "amounts"; param "minconf";
     param "comment"; param "subtractfeefrom"; param "replaceable";
     param "conf_target";
     param_default "estimate_mode" (VString (js "unset")); param "fee_rate"];
  wrapper "sendtoaddress" "sendtoaddress"
    [param "address"; param "amount"; param "comment"; param "comment_to";
     param_default "subtractfeefromamount" (VBool false);
     param "replaceable"; param "conf_target";
     param_default "estimate_mode" (VString (js "unset"));
     param_default "avoid_reuse" (VBool true);
     param_default "verbose" (VBool false)];
  wrapper "sethdseed" "sethdseed"
    [param_default "newkeypool" (VBool true); param "seed"];
  wrapper "setlabel" "setlabel" [param "address"; param "label"];
  wrapper "settxfee" "settxfee" [param "amount"];
  wrapper "setwalletflag" "setwalletflag"
    [param "flag"; param_default "value" (VBool true)];
  wrapper "signmessage" "signmessage" [param "address"; param "message"];
  wrapper "signrawtransactionwithwallet" "signrawtransactionwithwallet"
    [param "hexstring"; param "prevtxs";
     param_default "sighashtype" (VString (js "ALL"))];
  wrapper "unloadwallet" "unloadwallet"
    [param "wallet_name"; param_default "load_on_startup" VNull];
  wrapper "upgradewallet" "upgradewallet" [param "version"];
  wrapper "walletcreatefundedpsbt" "walletcreatefundedpsbt"
    [param "inputs"; param "outputs"; param_default "locktime" (integer []);
     param "options"; param_default "bip32derivs" (VBool true)];
  wrapper "walletlock" "walletlock" [];
  wrapper "walletpassphrase" "walletpassphrase"
    [param "passphrase"; param "timeout"];
  wrapper "walletpassphrasechange" "walletpassphrasechange"
    [param "oldpassphrase"; param "newpassphrase"];
  wrapper "walletprocesspsbt" "walletprocesspsbt"
    [param "psbt"; param_default "sign" (VBool true);
     param_default "sighashtype" (VString (js "ALL"));
     param_default "bip32derivs" (VBool true)]
].

Local Close Scope N_scope.

(** The values of the parameters in a call with the arguments
    [supplied]: a parameter takes its argument, unless that is missing or
    [undefined] and the parameter has a default; arguments beyond the
    parameters are not looked at. *)
Fixpoint bind (ps : list parameter) (supplied : list value) : list value :=
  match ps with
  | [] => []
  | p :: ps' =>
      (match hd VUndefined supplied, default p with
       | VUndefined, Some d => d
       | a, _ => a
       end) :: bind ps' (tl supplied)
  end.

(** [this.name(...supplied)] for a method of the table. *)
Definition invoke (w : class_method) (this : client) (net : transport)
           (supplied : list value) : outcome :=
  __send this net (wmethod w) (bind (parameters w) supplied).

(** [this[name]]: the method of that name, if the class has one. *)
Definition find_method (name : jsstring) : option class_method :=
  find (fun w => jsstring_eqb (wname w) name) methods.

End Methods.

(** * JSON: what is written is read back *)

(** ** Strings read back *)

Module StringRoundTrip.

Import JSON.
Local Open Scope N_scope.

Lemma hex_value_hex_char (d : N) : d < 16 -> hex_value (hex_char d) = Some d.
Proof.
  intros H.
  assert (E : In d [0; 1; 2; 3; 4; 5; 6; 7; 8; 9; 10; 11; 12; 13; 14; 15])
    by (simpl; lia).
  simpl in E.
  repeat (destruct E as [<-|E]; [reflexivity|]). contradiction.
Qed.

Lemma hex_digits_sum (c : N) :
  c < 65536 ->
  4096 * (c / 4096) + 256 * ((c / 256) mod 16) + 16 * ((c / 16) mod 16) + c mod 16 = c.
Proof.
  intros H. 
  pose proof (N.div_mod c 16 ltac:(lia)).
  pose proof (N.div_mod (c / 16) 16 ltac:(lia)).
  pose proof (N.div_mod (c / 16 / 16) 16 ltac:(lia)).
  rewrite !N.Div0.div_div in *.
  change (16 * 16) with 256 in *. change (256 * 16) with 4096 in *.
  pose proof (N.mod_small (c / 4096) 16).
  assert (c / 4096 < 16) by (apply N.Div0.div_lt_upper_bound; lia).
  lia.
Qed.

Lemma parse_raw_unit (c : code_unit) (t : jsstring) :
  32 <= c -> c <> 34 -> c <> 92 ->
  parse_string_body (c :: t) = prepend c (parse_string_body t).
Proof.
  intros H32 H34 H92. cbn [parse_string_body].
  apply N.eqb_neq in H34, H92. rewrite H34, H92.
  apply N.ltb_ge in H32. now rewrite H32.
Qed.

Lemma parse_escape_u (h3 h2 h1 h0 : code_unit) (t : jsstring) :
  parse_string_body (92 :: 117 :: h3 :: h2 :: h1 :: h0 :: t) =
    match hex_value h3, hex_value h2, hex_value h1, hex_value h0 with
    | Some a, Some b, Some c, Some d =>
        prepend (4096 * a + 256 * b + 16 * c + d) (parse_string_body t)
    | _, _, _, _ => None
    end.
Proof. reflexivity. Qed.

Lemma parse_UnicodeEscape (c : code_unit) (t : jsstring) :
  c < 65536 ->
  parse_string_body (UnicodeEscape c ++ t) = prepend c (parse_string_body t).
Proof.
  intros H. unfold UnicodeEscape.
  change (js "\u") with [92; 117]. cbn [app].
  rewrite parse_escape_u.
  rewrite !hex_value_hex_char.
  - now rewrite hex_digits_sum.
  - apply N.mod_lt. discriminate.
  - apply N.mod_lt. discriminate.
  - apply N.mod_lt. discriminate.
  - apply N.Div0.div_lt_upper_bound. exact H.
Qed.

Lemma parse_quote_unit (c : code_unit) (t : jsstring) :
  c < 65536 ->
  parse_string_body (quote_unit c ++ t) = prepend c (parse_string_body t).
Proof.
  intros H. unfold quote_unit.
  destruct (N.eqb_spec c 8) as [->|]; [reflexivity|].
  destruct (N.eqb_spec c 9) as [->|]; [reflexivity|].
  destruct (N.eqb_spec c 10) as [->|]; [reflexivity|].
  destruct (N.eqb_spec c 12) as [->|]; [reflexivity|].
  destruct (N.eqb_spec c 13) as [->|]; [reflexivity|].
  destruct (N.eqb_spec c 34) as [->|]; [reflexivity|].
  destruct (N.eqb_spec c 92) as [->|]; [reflexivity|].
  destruct (N.ltb_spec c 32).
  - now apply parse_UnicodeEscape.
  - now apply parse_raw_unit.
Qed.

Lemma wf_string_cons (c : code_unit) (s : jsstring) :
  wf_string (c :: s) = true <-> c < 65536 /\ wf_string s = true.
Proof.
  unfold wf_string. simpl. rewrite andb_true_iff, N.ltb_lt. tauto.
Qed.

(** The text of a string, without the opening quote, reads back as the
    string. *)
Lemma parse_quote_units (s rest : jsstring) :
  wf_string s = true ->
  parse_string_body (quote_units s ++ 34 :: rest) = Some (s, rest).
Proof.
  remember (List.length s) as n eqn:Hn.
  revert s Hn. induction n as [n IH] using lt_wf_ind. intros s Hn Hwf.
  destruct s as [|c r]; [reflexivity|].
  apply wf_string_cons in Hwf as [Hc Hr].
  assert (Tail : forall r', (List.length r' < n)%nat -> wf_string r' = true ->
                  parse_string_body (quote_units r' ++ 34 :: rest) = Some (r', rest)).
  { intros r' Hlt Hr'. now apply (IH (List.length r')). }
  simpl in Hn. cbn [quote_units].
  destruct (is_leading_surrogate c) eqn:Hlead.
  - unfold is_leading_surrogate in Hlead.
    apply andb_true_iff in Hlead as [Hlo Hhi]. apply N.leb_le in Hlo, Hhi.
    destruct r as [|c' r'].
    + rewrite parse_UnicodeEscape by exact Hc. reflexivity.
    + destruct (is_trailing_surrogate c') eqn:Htrail.
      * unfold is_trailing_surrogate in Htrail.
        apply andb_true_iff in Htrail as [Hlo' Hhi']. apply N.leb_le in Hlo', Hhi'.
        apply wf_string_cons in Hr as [Hc' Hr'].
        cbn [app]. rewrite parse_raw_unit by lia. rewrite parse_raw_unit by lia.
        rewrite Tail; [reflexivity | simpl in Hn; lia | exact Hr'].
      * rewrite <- app_assoc, parse_UnicodeEscape by exact Hc.
        rewrite Tail; [reflexivity | lia | exact Hr].
  - destruct (is_trailing_surrogate c).
    + rewrite <- app_assoc, parse_UnicodeEscape by exact Hc.
      rewrite Tail; [reflexivity | lia | exact Hr].
    + rewrite <- app_assoc, parse_quote_unit by exact Hc.
      rewrite Tail; [reflexivity | lia | exact Hr].
Qed.

Lemma parse_QuoteJSONString (s rest : jsstring) :
  wf_string s = true ->
  exists t, QuoteJSONString s ++ rest = 34 :: t /\
            parse_string_body t = Some (s, rest).
Proof.
  intros H. exists (quote_units s ++ 34 :: rest). split.
  - unfold QuoteJSONString. simpl. now rewrite <- app_assoc.
  - now apply parse_quote_units.
Qed.

End StringRoundTrip.

(** ** The fuel of the parser

    What [parse_value] reads with some fuel it reads with any fuel above
    twice the number of code units read. *)

Module ParserFuel.

Import JSON.
Local Open Scope N_scope.

Lemma accept_length (c : code_unit) (s r : jsstring) :
  accept c s = Some r -> List.length s = S (List.length r).
Proof.
  destruct s as [|x s]; simpl; [discriminate|].
  destruct (x =? c); [|discriminate]. now intros [= ->].
Qed.

Lemma skip_ws_length (s : jsstring) : (List.length (skip_ws s) <= List.length s)%nat.
Proof.
  induction s as [|c s IH]; simpl; [lia|].
  destruct (is_ws c); simpl; lia.
Qed.

Lemma span_digits_length (s : jsstring) (ds : list N) (r : jsstring) :
  span_digits s = (ds, r) -> (List.length r <= List.length s)%nat.
Proof.
  revert ds r. induction s as [|c s IH]; simpl; intros ds r H.
  - injection H as <- <-. simpl. lia.
  - destruct (is_digit c).
    + destruct (span_digits s) as [ds' r'] eqn:E. injection H as <- <-.
      specialize (IH ds' r' eq_refl). lia.
    + injection H as <- <-. simpl. lia.
Qed.

Lemma parse_int_length (s : jsstring) (ds : list N) (r : jsstring) :
  parse_int s = Some (ds, r) -> (List.length r < List.length s)%nat.
Proof.
  unfold parse_int. destruct s as [|c s]; [discriminate|].
  destruct (c =? 48).
  - intros [= <- <-]. simpl. lia.
  - destruct (is_digit c); [|discriminate].
    destruct (span_digits s) as [ds' r'] eqn:E. intros [= <- <-].
    apply span_digits_length in E. simpl. lia.
Qed.

Lemma parse_frac_length (s : jsstring) (ds : list N) (r : jsstring) :
  parse_frac s = Some (ds, r) -> (List.length r <= List.length s)%nat.
Proof.
  unfold parse_frac. destruct (accept 46 s) as [r0|] eqn:Ea.
  - apply accept_length in Ea.
    destruct (span_digits r0) as [ds' r'] eqn:E. apply span_digits_length in E.
    destruct ds'; [discriminate|]. intros [= <- <-]. lia.
  - intros [= <- <-]. lia.
Qed.

Lemma parse_exp_length (s : jsstring) (x : Z) (r : jsstring) :
  parse_exp s = Some (x, r) -> (List.length r <= List.length s)%nat.
Proof.
  unfold parse_exp.
  assert (Mark : forall r0,
             match accept 101 s with Some r => Some r | None => accept 69 s end = Some r0 ->
             List.length s = S (List.length r0)).
  { intros r0. destruct (accept 101 s) eqn:E1.
    - intros [= <-]. now apply accept_length in E1.
    - apply accept_length. }
  destruct (match accept 101 s with Some r => Some r | None => accept 69 s end)
    as [r0|]; [|intros [= <- <-]; lia].
  specialize (Mark r0 eq_refl).
  assert (Sign : forall neg r1,
             match accept 43 r0 with
             | Some r1 => (false, r1)
             | None => match accept 45 r0 with
                       | Some r1 => (true, r1)
                       | None => (false, r0)
                       end
             end = (neg, r1) -> (List.length r1 <= List.length r0)%nat).
  { intros neg r1. destruct (accept 43 r0) eqn:E1.
    - intros [= <- <-]. apply accept_length in E1. lia.
    - destruct (accept 45 r0) eqn:E2.
      + intros [= <- <-]. apply accept_length in E2. lia.
      + intros [= <- <-]. lia. }
  destruct (match accept 43 r0 with
            | Some r1 => (false, r1)
            | None => match accept 45 r0 with
                      | Some r1 => (true, r1)
                      | None => (false, r0)
                      end
            end) as [neg r1].
  specialize (Sign neg r1 eq_refl).
  destruct (span_digits r1) as [ds r'] eqn:E. apply span_digits_length in E.
  destruct ds; [discriminate|]. intros [= <- <-]. lia.
Qed.

Lemma parse_unsigned_length (neg : bool) (s : jsstring) (n : number) (r : jsstring) :
  parse_unsigned neg s = Some (n, r) -> (List.length r < List.length s)%nat.
Proof.
  unfold parse_unsigned.
  destruct (parse_int s) as [[int s2]|] eqn:E1; [|discriminate].
  destruct (parse_frac s2) as [[frac s3]|] eqn:E2; [|discriminate].
  destruct (parse_exp s3) as [[x s4]|] eqn:E3; [|discriminate].
  intros [= <- <-].
  apply parse_int_length in E1. apply parse_frac_length in E2.
  apply parse_exp_length in E3. lia.
Qed.

Lemma parse_number_length (s : jsstring) (n : number) (r : jsstring) :
  parse_number s = Some (n, r) -> (List.length r < List.length s)%nat.
Proof.
  unfold parse_number. destruct (accept 45 s) as [r0|] eqn:E.
  - intros H. apply parse_unsigned_length in H. apply accept_length in E. lia.
  - apply parse_unsigned_length.
Qed.

Lemma prepend_length (c : code_unit) (X : option (jsstring * jsstring)) (t r : jsstring) :
  prepend c X = Some (t, r) -> exists t', X = Some (t', r).
Proof.
  destruct X as [[t' r']|]; simpl; [|discriminate].
  intros [= <- <-]. now exists t'.
Qed.

Lemma parse_string_body_length (s t r : jsstring) :
  parse_string_body s = Some (t, r) -> (List.length r < List.length s)%nat.
Proof.
  remember (List.length s) as n eqn:Hn. revert s t r Hn.
  induction n as [n IH] using lt_wf_ind. intros s t r Hn H.
  assert (Tail : forall c s' t', (List.length s' < n)%nat ->
                   prepend c (parse_string_body s') = Some (t', r) ->
                   (List.length r < List.length s')%nat).
  { intros c s' t' Hlt Hp. apply prepend_length in Hp as (t'' & Hp).
    now apply (IH (List.length s') Hlt s' t''). }
  destruct s as [|c s1]; [discriminate|]. cbn [parse_string_body] in H.
  simpl in Hn.
  destruct (c =? 34); [injection H as <- <-; lia|].
  destruct (c =? 92).
  - destruct s1 as [|e s2]; [discriminate|]. simpl in Hn.
    destruct (e =? 117).
    + destruct s2 as [|h3 [|h2 [|h1 [|h0 s3]]]]; try discriminate.
      simpl in Hn.
      destruct (hex_value h3), (hex_value h2), (hex_value h1), (hex_value h0);
        try discriminate.
      apply Tail in H; lia.
    + repeat match type of H with
             | (if ?b then _ else _) = _ =>
                 destruct b; [apply Tail in H; lia|]
             end.
      discriminate.
  - destruct (c <? 32); [discriminate|]. apply Tail in H; lia.
Qed.

Lemma expect_length (t s r : jsstring) :
  expect t s = Some r -> (List.length r <= List.length s)%nat.
Proof.
  revert s. induction t as [|a t IH]; intros s; simpl.
  - intros [= ->]. lia.
  - destruct s as [|b s]; [discriminate|]. destruct (a =? b); [|discriminate].
    intros H. apply IH in H. simpl. lia.
Qed.

Lemma literal_length (t : jsstring) (v v' : value) (s r : jsstring) :
  literal t v s = Some (v', r) -> (List.length r <= List.length s)%nat.
Proof.
  unfold literal. destruct (expect t s) as [r'|] eqn:E; [|discriminate].
  intros [= <- <-]. now apply expect_length in E.
Qed.

Ltac more_fuel :=
  let f' := fresh "f'" in
  let Hf' := fresh "Hf'" in
  intros f' Hf'; destruct f' as [|f']; [lia|];
  cbn [parse_value parse_elements parse_members];
  repeat match goal with
         | E : ?x = _ |- context [?x] => rewrite E
         end;
  try reflexivity.

(** With fuel [f], each of the three parsers reads at least one code
    unit, and reads the same with any fuel that is at least twice the
    number of code units read. *)
Lemma fuel_enough (f : nat) :
  (forall s v r,
      parse_value f s = Some (v, r) ->
      (List.length r < List.length s)%nat /\
      forall f', (2 * (List.length s - List.length r) <= f')%nat ->
                 parse_value f' s = Some (v, r))
  /\
  (forall s vs r,
      parse_elements f s = Some (vs, r) ->
      (List.length r < List.length s)%nat /\
      forall f', (2 * (List.length s - List.length r) <= f')%nat ->
                 parse_elements f' s = Some (vs, r))
  /\
  (forall s ms r,
      parse_members f s = Some (ms, r) ->
      (List.length r < List.length s)%nat /\
      forall f', (2 * (List.length s - List.length r) <= f')%nat ->
                 parse_members f' s = Some (ms, r)).
Proof.
  induction f as [|f (PV & PE & PM)]; [repeat split; discriminate|].
  split; [|split].
  - (* a value *)
    intros s v r H. cbn [parse_value] in H.
    pose proof (skip_ws_length s) as Hws.
    destruct (skip_ws s) as [|c r0] eqn:Ews; [discriminate|]. simpl in Hws.
    destruct (c =? 123) eqn:E123.
    { pose proof (skip_ws_length r0) as Hws0.
      destruct (accept 125 (skip_ws r0)) as [r'|] eqn:Ea.
      - injection H as <- <-. apply accept_length in Ea as Hlen.
        split; [lia|]. more_fuel.
      - destruct (parse_members f r0) as [[ms r']|] eqn:Em; [|discriminate].
        injection H as <- <-. destruct (PM _ _ _ Em) as [Hlen Hfuel].
        split; [lia|]. more_fuel. rewrite Hfuel by lia. reflexivity. }
    destruct (c =? 91) eqn:E91.
    { pose proof (skip_ws_length r0) as Hws0.
      destruct (accept 93 (skip_ws r0)) as [r'|] eqn:Ea.
      - injection H as <- <-. apply accept_length in Ea as Hlen.
        split; [lia|]. more_fuel.
      - destruct (parse_elements f r0) as [[vs r']|] eqn:Ee; [|discriminate].
        injection H as <- <-. destruct (PE _ _ _ Ee) as [Hlen Hfuel].
        split; [lia|]. more_fuel. rewrite Hfuel by lia. reflexivity. }
    destruct (c =? 34) eqn:E34.
    { destruct (parse_string_body r0) as [[t r']|] eqn:Es; [|discriminate].
      injection H as <- <-. apply parse_string_body_length in Es as Hlen.
      split; [lia|]. more_fuel. }
    destruct (c =? 116) eqn:E116.
    { apply literal_length in H as Hlen. split; [lia|]. more_fuel. }
    destruct (c =? 102) eqn:E102.
    { apply literal_length in H as Hlen. split; [lia|]. more_fuel. }
    destruct (c =? 110) eqn:E110.
    { apply literal_length in H as Hlen. split; [lia|]. more_fuel. }
    destruct (parse_number (c :: r0)) as [[n r']|] eqn:En; [|discriminate].
    injection H as <- <-. apply parse_number_length in En as Hlen. simpl in Hlen.
    split; [lia|]. more_fuel.
  - (* the elements of an array *)
    intros s vs r H. cbn [parse_elements] in H.
    destruct (parse_value f s) as [[v r1]|] eqn:Ev; [|discriminate].
    destruct (PV _ _ _ Ev) as [Hlen1 Hfuel1].
    pose proof (skip_ws_length r1) as Hws.
    destruct (accept 44 (skip_ws r1)) as [r2|] eqn:Ea.
    + apply accept_length in Ea as Hlen2.
      destruct (parse_elements f r2) as [[vs' r3]|] eqn:Ee; [|discriminate].
      injection H as <- <-. destruct (PE _ _ _ Ee) as [Hlen3 Hfuel3].
      split; [lia|]. more_fuel.
      rewrite Hfuel1 by lia. rewrite Ea. rewrite Hfuel3 by lia. reflexivity.
    + destruct (accept 93 (skip_ws r1)) as [r2|] eqn:Eb; [|discriminate].
      injection H as <- <-. apply accept_length in Eb as Hlen2.
      split; [lia|]. more_fuel.
      rewrite Hfuel1 by lia. rewrite Ea, Eb. reflexivity.
  - (* the members of an object *)
    intros s ms r H. cbn [parse_members] in H.
    pose proof (skip_ws_length s) as Hws.
    destruct (accept 34 (skip_ws s)) as [r0|] eqn:Eq; [|discriminate].
    apply accept_length in Eq as Hlen0.
    destruct (parse_string_body r0) as [[k r1]|] eqn:Ek; [|discriminate].
    apply parse_string_body_length in Ek as Hlen1.
    pose proof (skip_ws_length r1) as Hws1.
    destruct (accept 58 (skip_ws r1)) as [r2|] eqn:Ec; [|discriminate].
    apply accept_length in Ec as Hlen2.
    destruct (parse_value f r2) as [[v r3]|] eqn:Ev; [|discriminate].
    destruct (PV _ _ _ Ev) as [Hlen3 Hfuel3].
    pose proof (skip_ws_length r3) as Hws3.
    destruct (accept 44 (skip_ws r3)) as [r4|] eqn:Ea.
    + apply accept_length in Ea as Hlen4.
      destruct (parse_members f r4) as [[ms' r5]|] eqn:Em; [|discriminate].
      injection H as <- <-. destruct (PM _ _ _ Em) as [Hlen5 Hfuel5].
      split; [lia|]. more_fuel.
      rewrite Hfuel3 by lia. rewrite Ea. rewrite Hfuel5 by lia. reflexivity.
    + destruct (accept 125 (skip_ws r3)) as [r4|] eqn:Eb; [|discriminate].
      injection H as <- <-. apply accept_length in Eb as Hlen4.
      split; [lia|]. more_fuel.
      rewrite Hfuel3 by lia. rewrite Ea, Eb. reflexivity.
Qed.

(** The fuel of [parse] is enough: a text that some fuel reads as one
    value and white space is parsed to that value. *)
Theorem parse_complete (f : nat) (text : jsstring) (v : value) (r : jsstring) :
  parse_value f text = Some (v, r) -> skip_ws r = [] -> parse text = Return v.
Proof.
  intros H Hr. unfold parse.
  destruct (fuel_enough f) as (PV & _ & _).
  destruct (PV _ _ _ H) as [_ Hfuel].
  rewrite Hfuel by lia. now rewrite Hr.
Qed.

(** [parse] throws only on a text that no fuel reads as one value and
    white space. *)
Corollary parse_throws (text : jsstring) (e : exception) :
  parse text = Throw e ->
  forall f v r, parse_value f text = Some (v, r) -> skip_ws r <> [].
Proof.
  intros H f v r Hp Hr. rewrite (parse_complete f text v r Hp Hr) in H.
  discriminate H.
Qed.

End ParserFuel.

(** ** Numbers read back *)

Module NumberRoundTrip.

Import JSON.
Local Open Scope N_scope.

Lemma accept_same (c : code_unit) (r : jsstring) : accept c (c :: r) = Some r.
Proof. unfold accept. now rewrite N.eqb_refl. Qed.

Lemma accept_other (c : code_unit) (s : jsstring) :
  head_is (fun x => x =? c) s = false -> accept c s = None.
Proof. destruct s as [|x s]; [reflexivity|]. simpl. now intros ->. Qed.

Lemma span_digits_end (rest : jsstring) :
  head_is is_digit rest = false -> span_digits rest = ([], rest).
Proof.
  destruct rest as [|c r]; simpl; [reflexivity|]. now intros ->.
Qed.

Lemma span_digit_chars (ds : list N) (rest : jsstring) :
  forallb (fun d => d <? 10) ds = true ->
  head_is is_digit rest = false ->
  span_digits (digit_chars ds ++ rest) = (ds, rest).
Proof.
  intros Hds Hrest. induction ds as [|d ds IH].
  - now apply span_digits_end.
  - simpl in Hds. apply andb_true_iff in Hds as [Hd Hds]. apply N.ltb_lt in Hd.
    cbn [digit_chars map app span_digits].
    assert (Hc : is_digit (48 + d) = true).
    { unfold is_digit. apply andb_true_iff. split; apply N.leb_le; lia. }
    rewrite Hc. fold (digit_chars ds). rewrite (IH Hds).
    f_equal. f_equal. lia.
Qed.

Lemma list_of_uint_digits (u : Decimal.uint) :
  forallb (fun d => d <? 10) (list_of_uint u) = true.
Proof. induction u; simpl; auto. Qed.

Lemma uint_of_list_of_uint (u : Decimal.uint) : uint_of_list (list_of_uint u) = u.
Proof. induction u; simpl; congruence. Qed.

Lemma to_uint_not_nil (n : N) : list_of_uint (N.to_uint n) <> [].
Proof.
  destruct n as [|p]; [discriminate|].
  intros H. pose proof (DecimalN.Unsigned.of_to (Npos p)) as E.
  destruct (N.to_uint (Npos p)); try discriminate H. discriminate E.
Qed.

(** The decimal digits of [n] read back as [n]. *)
Lemma span_decimal (n : N) (rest : jsstring) :
  head_is is_digit rest = false ->
  exists ds, ds <> [] /\
             span_digits (decimal n ++ rest) = (ds, rest) /\
             N.of_uint (uint_of_list ds) = n.
Proof.
  intros Hrest. exists (list_of_uint (N.to_uint n)). split; [|split].
  - apply to_uint_not_nil.
  - apply span_digit_chars; [apply list_of_uint_digits | exact Hrest].
  - rewrite uint_of_list_of_uint. apply DecimalN.Unsigned.of_to.
Qed.

(** *** Normalisation *)

Lemma strip_zeros_zeros (a : nat) (l : list N) :
  strip_zeros (zeros a ++ l) = strip_zeros l.
Proof. induction a; simpl; auto. Qed.

Lemma strip_zeros_head (l : list N) : hd 0 l <> 0 -> strip_zeros l = l.
Proof.
  destruct l as [|d l]; simpl; [reflexivity|].
  intros H. destruct d; [contradiction | reflexivity].
Qed.

Lemma hd_rev_last (l : list N) : hd 0 (rev l) = last l 0.
Proof.
  induction l as [|x l _] using rev_ind; [reflexivity|].
  now rewrite rev_unit, last_last.
Qed.

Lemma wf_digits_cons (ds : list N) :
  wf_digits ds = true -> ds <> [] ->
  forallb (fun d => d <? 10) ds = true /\ hd 0 ds <> 0 /\ last ds 0 <> 0.
Proof.
  unfold wf_digits. intros H _.
  apply andb_true_iff in H as [H Hl]. apply andb_true_iff in H as [Hall Hh].
  apply negb_true_iff, N.eqb_neq in Hl, Hh. auto.
Qed.

(** Zeros before and after the digits of a number only move its
    exponent. *)
Lemma make_number_zeros (neg : bool) (a b : nat) (ds : list N) (e : Z) :
  ds <> [] -> hd 0 ds <> 0 -> last ds 0 <> 0 ->
  make_number neg (zeros a ++ ds ++ zeros b) e =
    {| negative := neg; digits := ds; exponent := e + Z.of_nat b |}.
Proof.
  intros Hne Hhd Hlast. unfold make_number.
  rewrite strip_zeros_zeros.
  assert (Lead : strip_zeros (ds ++ zeros b) = ds ++ zeros b).
  { apply strip_zeros_head. destruct ds; [contradiction | exact Hhd]. }
  assert (Sig : rev (strip_zeros (rev (ds ++ zeros b))) = ds).
  { rewrite rev_app_distr. unfold zeros. rewrite rev_repeat. fold (zeros b).
    rewrite strip_zeros_zeros.
    rewrite (strip_zeros_head (rev ds)) by (now rewrite hd_rev_last).
    apply rev_involutive. }
  rewrite Lead, Sig.
  destruct ds as [|d ds']; [contradiction|].
  rewrite length_app. unfold zeros. rewrite repeat_length.
  f_equal. lia.
Qed.

Lemma make_number_digits (neg : bool) (ds : list N) (e : Z) :
  ds <> [] -> hd 0 ds <> 0 -> last ds 0 <> 0 ->
  make_number neg ds e = {| negative := neg; digits := ds; exponent := e |}.
Proof.
  intros Hne Hhd Hlast.
  pose proof (make_number_zeros neg 0 0 ds e Hne Hhd Hlast) as H.
  simpl in H. rewrite app_nil_r, Z.add_0_r in H. exact H.
Qed.

(** *** The parts of a literal *)

Lemma parse_int_digits (d : N) (ds : list N) (rest : jsstring) :
  d <> 0 -> d < 10 ->
  forallb (fun d => d <? 10) ds = true ->
  head_is is_digit rest = false ->
  parse_int (digit_chars (d :: ds) ++ rest) = Some (d :: ds, rest).
Proof.
  intros Hd0 Hd Hds Hrest. cbn [digit_chars map app parse_int].
  fold (digit_chars ds).
  assert (H48 : (48 + d =? 48) = false) by (apply N.eqb_neq; lia).
  assert (Hc : is_digit (48 + d) = true).
  { unfold is_digit. apply andb_true_iff. split; apply N.leb_le; lia. }
  rewrite H48, Hc, span_digit_chars by assumption.
  f_equal. f_equal. f_equal. lia.
Qed.

Lemma parse_frac_none (rest : jsstring) :
  head_is (fun c => c =? 46) rest = false -> parse_frac rest = Some ([], rest).
Proof. intros H. unfold parse_frac. now rewrite accept_other. Qed.

Lemma parse_frac_digits (ds : list N) (rest : jsstring) :
  ds <> [] ->
  forallb (fun d => d <? 10) ds = true ->
  head_is is_digit rest = false ->
  parse_frac (46 :: digit_chars ds ++ rest) = Some (ds, rest).
Proof.
  intros Hne Hds Hrest. unfold parse_frac.
  rewrite accept_same, span_digit_chars by assumption.
  destruct ds; [contradiction | reflexivity].
Qed.

Lemma parse_exp_none (rest : jsstring) :
  head_is (fun c => (c =? 101) || (c =? 69)) rest = false ->
  parse_exp rest = Some (0%Z, rest).
Proof.
  intros H. unfold parse_exp.
  rewrite !accept_other; [reflexivity | |];
    destruct rest as [|c r]; try reflexivity; simpl in *;
    apply orb_false_iff in H; tauto.
Qed.

Lemma parse_exp_digits (x : Z) (rest : jsstring) :
  head_is is_digit rest = false ->
  parse_exp (js "e" ++ (if (x <? 0)%Z then js "-" else js "+")
               ++ decimal (Z.abs_N x) ++ rest) = Some (x, rest).
Proof.
  intros Hrest.
  destruct (span_decimal (Z.abs_N x) rest Hrest) as (ds & Hne & Hspan & Hval).
  change (js "e") with [101]. cbn [app]. unfold parse_exp.
  rewrite accept_same.
  destruct (x <? 0)%Z eqn:Hx.
  - change (js "-") with [45]. cbn [app].
    rewrite (accept_other 43) by reflexivity. rewrite accept_same, Hspan.
    destruct ds; [contradiction|]. rewrite Hval.
    apply Z.ltb_lt in Hx. f_equal. f_equal. lia.
  - change (js "+") with [43]. cbn [app]. rewrite accept_same, Hspan.
    destruct ds; [contradiction|]. rewrite Hval.
    apply Z.ltb_ge in Hx. f_equal. f_equal. lia.
Qed.

Lemma ends_number_heads (rest : jsstring) :
  ends_number rest = true ->
  head_is is_digit rest = false /\
  head_is (fun c => c =? 46) rest = false /\
  head_is (fun c => (c =? 101) || (c =? 69)) rest = false.
Proof.
  unfold ends_number. destruct rest as [|c r]; simpl; [auto|].
  intros H. apply negb_true_iff in H.
  destruct (is_digit c), (c =? 46), (c =? 101), (c =? 69); simpl in *; auto; discriminate.
Qed.

Lemma forallb_zeros (n : nat) : forallb (fun d => d <? 10) (zeros n) = true.
Proof. induction n; simpl; auto. Qed.

Lemma forallb_firstn (n : nat) (ds : list N) :
  forallb (fun d => d <? 10) ds = true ->
  forallb (fun d => d <? 10) (firstn n ds) = true.
Proof.
  revert n. induction ds as [|d ds IH]; intros [|n]; simpl; auto.
  intros H. apply andb_true_iff in H as [-> H]. simpl. auto.
Qed.

Lemma forallb_skipn (n : nat) (ds : list N) :
  forallb (fun d => d <? 10) ds = true ->
  forallb (fun d => d <? 10) (skipn n ds) = true.
Proof.
  revert n. induction ds as [|d ds IH]; intros [|n]; simpl; auto.
  intros H. apply andb_true_iff in H as [_ H]. auto.
Qed.

Lemma digit_chars_app (a b : list N) :
  digit_chars (a ++ b) = digit_chars a ++ digit_chars b.
Proof. apply map_app. Qed.

(** The literal [Number::toString] prints for a positive number reads
    back as the number. *)
Lemma parse_positive_toString (neg : bool) (ds : list N) (e : Z) (rest : jsstring) :
  wf_digits ds = true -> ds <> [] -> ends_number rest = true ->
  parse_unsigned neg (positive_toString ds e ++ rest) =
    Some ({| negative := neg; digits := ds; exponent := e |}, rest).
Proof.
  intros Hwf Hne Hrest.
  destruct (wf_digits_cons ds Hwf Hne) as (Hall & Hhd & Hlast).
  destruct (ends_number_heads rest Hrest) as (Hdig & Hdot & Hexp).
  destruct ds as [|d ds']; [contradiction|].
  assert (Hd10 : d < 10).
  { simpl in Hall. apply andb_true_iff in Hall as [H _]. now apply N.ltb_lt. }
  assert (Hds' : forallb (fun d => d <? 10) ds' = true).
  { simpl in Hall. now apply andb_true_iff in Hall as [_ H]. }
  simpl in Hhd.
  unfold positive_toString, parse_unsigned.
  remember (Z.of_nat (List.length (d :: ds'))) as k eqn:Hk.
  remember (k + e)%Z as n eqn:Hn.
  destruct ((k <=? n)%Z && (n <=? 21)%Z) eqn:Ca.
  { (* digits, then zeros *)
    apply andb_true_iff in Ca as [Hkn _]. apply Z.leb_le in Hkn.
    cbn [app]. rewrite parse_int_digits; try assumption.
    2:{ rewrite forallb_app, Hds', forallb_zeros. reflexivity. }
    rewrite parse_frac_none, parse_exp_none by assumption.
    rewrite app_nil_r.
    change (d :: ds' ++ zeros (Z.to_nat (n - k)))
      with (zeros 0 ++ (d :: ds') ++ zeros (Z.to_nat (n - k))).
    rewrite make_number_zeros by assumption.
    do 3 f_equal. cbn [List.length]. lia. }
  destruct ((0 <? n)%Z && (n <=? 21)%Z) eqn:Cb.
  { (* digits, point, digits *)
    apply andb_true_iff in Cb as [H0n Hn21]. apply Z.ltb_lt in H0n.
    apply Z.leb_le in Hn21.
    apply andb_false_iff in Ca as [Ca|Ca];
      [apply Z.leb_gt in Ca | apply Z.leb_gt in Ca; lia].
    destruct (Z.to_nat n) as [|n'] eqn:Hn'; [lia|].
    assert (Hlen : (n' < List.length ds')%nat) by (simpl in Hk; lia).
    cbn [firstn skipn]. change (js ".") with [46].
    rewrite <- app_assoc. rewrite parse_int_digits; try assumption.
    2:{ now apply forallb_firstn. }
    2:{ reflexivity. }
    rewrite <- app_assoc. cbn [app]. rewrite parse_frac_digits; try assumption.
    2:{ intros E. apply (f_equal (@List.length N)) in E.
        rewrite length_skipn in E. simpl in E. lia. }
    2:{ now apply forallb_skipn. }
    rewrite parse_exp_none by assumption.
    change ((d :: firstn n' ds') ++ skipn n' ds') with (d :: (firstn n' ds' ++ skipn n' ds')).
    rewrite firstn_skipn, make_number_digits by assumption.
    do 3 f_equal. rewrite length_skipn. simpl in Hk. lia. }
  destruct ((-6 <? n)%Z && (n <=? 0)%Z) eqn:Cc.
  { (* zero point zeros digits *)
    apply andb_true_iff in Cc as [_ Hn0]. apply Z.leb_le in Hn0.
    change (js "0.") with [48; 46]. cbn [app].
    change (parse_int (48 :: 46 :: digit_chars (zeros (Z.to_nat (- n)) ++ d :: ds') ++ rest))
      with (Some ([0], 46 :: digit_chars (zeros (Z.to_nat (- n)) ++ d :: ds') ++ rest)).
    cbv iota. rewrite parse_frac_digits; try assumption.
    2:{ destruct (Z.to_nat (- n)); discriminate. }
    2:{ rewrite forallb_app, forallb_zeros. exact Hall. }
    rewrite parse_exp_none by assumption.
    replace ([0] ++ zeros (Z.to_nat (- n)) ++ d :: ds')
      with (zeros (S (Z.to_nat (- n))) ++ (d :: ds') ++ zeros 0)
      by (simpl; now rewrite app_nil_r).
    rewrite make_number_zeros by assumption.
    do 3 f_equal. rewrite length_app. unfold zeros. rewrite repeat_length.
    simpl in Hk. simpl List.length. lia. }
  (* exponential notation *)
  assert (Hlit : forall frac,
             forallb (fun d => d <? 10) frac = true ->
             last (d :: frac) 0 <> 0 ->
             (n - 1 - Z.of_nat (List.length frac) = e)%Z ->
             match parse_int (digit_chars [d] ++
                     match frac with [] => [] | _ :: _ => js "." ++ digit_chars frac end
                     ++ js "e" ++ (if (n - 1 <? 0)%Z then js "-" else js "+")
                     ++ decimal (Z.abs_N (n - 1)) ++ rest) with
             | Some (int, s2) =>
                 match parse_frac s2 with
                 | Some (frac', s3) =>
                     match parse_exp s3 with
                     | Some (x, s4) =>
                         Some (make_number neg (int ++ frac')
                                 (x - Z.of_nat (List.length frac')), s4)
                     | None => None
                     end
                 | None => None
                 end
             | None => None
             end = Some ({| negative := neg; digits := d :: frac; exponent := e |}, rest)).
  { intros frac Hfrac Hl He.
    rewrite (parse_int_digits d [] _ Hhd Hd10 eq_refl).
    2:{ destruct frac; reflexivity. }
    destruct frac as [|f frac'].
    - cbn [app]. rewrite parse_frac_none by reflexivity.
      rewrite (parse_exp_digits (n - 1) rest Hdig).
      rewrite make_number_digits by (try assumption; discriminate).
      now rewrite He.
    - change (js ".") with [46]. cbn [app].
      rewrite parse_frac_digits; [| discriminate | exact Hfrac | reflexivity].
      rewrite (parse_exp_digits (n - 1) rest Hdig).
      rewrite make_number_digits by (try assumption; discriminate).
      now rewrite He. }
  destruct ds' as [|d2 ds''].
  - specialize (Hlit [] eq_refl Hlast). cbn [app] in Hlit |- *.
    rewrite <- !app_assoc. apply Hlit. simpl in Hk. simpl. lia.
  - specialize (Hlit (d2 :: ds'') Hds' Hlast).
    cbn [firstn skipn]. rewrite <- !app_assoc. apply Hlit.
    simpl in Hk. simpl List.length. lia.
Qed.

Lemma parse_unsigned_head (neg : bool) (s : jsstring) r :
  parse_unsigned neg s = Some r -> head_is is_digit s = true.
Proof.
  unfold parse_unsigned, parse_int. destruct s as [|c s]; [discriminate|].
  simpl. destruct (N.eqb_spec c 48) as [->|_]; [reflexivity|].
  destruct (is_digit c); [reflexivity | discriminate].
Qed.

Lemma parse_number_unsigned (s : jsstring) :
  head_is is_digit s = true -> parse_number s = parse_unsigned false s.
Proof.
  intros H. unfold parse_number. rewrite accept_other; [reflexivity|].
  destruct s as [|c s]; [reflexivity|]. simpl in *.
  destruct (N.eqb_spec c 45) as [->|]; [discriminate H | reflexivity].
Qed.

Lemma wf_number_zero (x : number) :
  wf_number x = true -> digits x = [] ->
  x = {| negative := negative x; digits := []; exponent := 0 |}.
Proof.
  destruct x as [neg ds e]. unfold wf_number. simpl. intros H ->.
  apply Z.eqb_eq in H. now subst.
Qed.

(** The literal of a number reads back as the number, [-0] as [0]. *)
Lemma parse_Number_toString (x : number) (rest : jsstring) :
  wf_number x = true -> ends_number rest = true ->
  parse_number (Number_toString x ++ rest) = Some (number_image x, rest).
Proof.
  intros Hwf Hrest. unfold Number_toString, number_image.
  destruct (digits x) as [|d ds'] eqn:Hds.
  - rewrite (wf_number_zero x Hwf Hds). cbn [exponent].
    destruct (ends_number_heads rest Hrest) as (Hdig & Hdot & Hexp).
    change (js "0") with [48]. cbn [app].
    change (parse_number (48 :: rest)) with (parse_unsigned false (48 :: rest)).
    unfold parse_unsigned.
    change (parse_int (48 :: rest)) with (Some ([0], rest)). cbv iota.
    now rewrite parse_frac_none, parse_exp_none by assumption.
  - assert (Hwd : wf_digits (d :: ds') = true).
    { unfold wf_number in Hwf. now rewrite Hds in Hwf. }
    assert (Hx : x = {| negative := negative x; digits := d :: ds'; exponent := exponent x |}).
    { destruct x. simpl in *. now subst. }
    pose proof (parse_positive_toString (negative x) (d :: ds') (exponent x) rest
                  Hwd ltac:(discriminate) Hrest) as Hp.
    rewrite <- Hx in Hp.
    destruct (negative x).
    + change (js "-") with [45]. cbn [app]. exact Hp.
    + cbn [app]. rewrite parse_number_unsigned; [exact Hp|].
      now apply parse_unsigned_head in Hp.
Qed.

(** A literal starts with a digit or a minus sign. *)
Lemma Number_toString_head (x : number) :
  wf_number x = true ->
  exists c t, Number_toString x = c :: t /\ (is_digit c = true \/ c = 45).
Proof.
  intros Hwf.
  pose proof (parse_Number_toString x [] Hwf eq_refl) as Hp.
  rewrite app_nil_r in Hp. unfold Number_toString in *.
  destruct (digits x) as [|d ds'].
  - exists 48, []. split; [reflexivity | now left].
  - destruct (negative x).
    + eexists 45, _. split; [reflexivity | now right].
    + cbn [app] in *. unfold parse_number in Hp.
      destruct (positive_toString (d :: ds') (exponent x)) as [|c t]; [discriminate Hp|].
      exists c, t. split; [reflexivity|].
      destruct (N.eqb_spec c 45) as [->|Hc]; [now right|left].
      rewrite accept_other in Hp by (simpl; now apply N.eqb_neq).
      now apply parse_unsigned_head in Hp.
Qed.

End NumberRoundTrip.

(** ** Values read back *)

Module ValueRoundTrip.

Import JSON StringRoundTrip NumberRoundTrip.
Local Open Scope N_scope.

Lemma value_induction (P : value -> Prop) :
  P VUndefined -> P VNull -> (forall b, P (VBool b)) ->
  (forall n, P (VNumber n)) -> (forall s, P (VString s)) ->
  (forall l, Forall P l -> P (VArray l)) ->
  (forall ms, Forall (fun m => P (snd m)) ms -> P (VObject ms)) ->
  P VNaN -> (forall neg, P (VInfinity neg)) ->
  forall v, P v.
Proof.
  intros Hu Hn Hb Hnum Hs Ha Ho Hnan Hinf. fix IH 1.
  intros [ | | b | n | s | l | ms | | neg];
    [exact Hu | exact Hn | apply Hb | apply Hnum | apply Hs | | | exact Hnan | apply Hinf ].
  - apply Ha. induction l as [|e l IHl]; constructor; [apply IH | exact IHl].
  - apply Ho. induction ms as [|m ms IHms]; constructor; [apply IH | exact IHms].
Qed.

(** *** The equations of the serializer *)

Lemma serialize_array (l : list value) :
  SerializeJSONProperty (VArray l) =
    Some (91 :: join [44] (map element_text l) ++ [93]).
Proof. reflexivity. Qed.

Lemma serialize_object (ms : list (jsstring * value)) :
  SerializeJSONProperty (VObject ms) =
    Some (123 :: join [44] (flat_map member_text ms) ++ [125]).
Proof. reflexivity. Qed.

Lemma serialize_none (v : value) :
  SerializeJSONProperty v = None -> v = VUndefined.
Proof. destruct v as [ | | [|] | | | | | | ]; simpl; congruence. Qed.

Lemma join_cons (sep p : jsstring) (ps : list jsstring) :
  ps <> [] -> join sep (p :: ps) = p ++ sep ++ join sep ps.
Proof. destruct ps; [contradiction | reflexivity]. Qed.

(** *** The first code unit of a text *)

Lemma starts_value_not_ws (c : code_unit) : starts_value c = true -> is_ws c = false.
Proof.
  unfold starts_value, is_ws, is_digit. intros H.
  destruct (N.eqb_spec c 32) as [->|]; [discriminate H|].
  destruct (N.eqb_spec c 9) as [->|]; [discriminate H|].
  destruct (N.eqb_spec c 10) as [->|]; [discriminate H|].
  destruct (N.eqb_spec c 13) as [->|]; [discriminate H|].
  reflexivity.
Qed.

Lemma skip_ws_value (s : jsstring) : head_is starts_value s = true -> skip_ws s = s.
Proof.
  destruct s as [|c s]; [reflexivity|]. simpl. intros H.
  now rewrite (starts_value_not_ws c H).
Qed.

Lemma head_is_app (p : code_unit -> bool) (s t : jsstring) :
  head_is p s = true -> head_is p (s ++ t) = true.
Proof. destruct s; [discriminate | auto]. Qed.

Lemma serialize_head (v : value) (t : jsstring) :
  well_formed v = true -> SerializeJSONProperty v = Some t ->
  head_is starts_value t = true.
Proof.
  destruct v as [ | | [|] | n | s | l | ms | | neg]; simpl; intros Hwf E;
    try discriminate E; injection E as <-; try reflexivity.
  destruct (Number_toString_head n Hwf) as (c & t & -> & [Hc | ->]); simpl.
  - unfold starts_value. now rewrite Hc.
  - reflexivity.
Qed.

Lemma element_text_head (e : value) :
  well_formed e = true -> head_is starts_value (element_text e) = true.
Proof.
  intros Hwf. unfold element_text.
  destruct (SerializeJSONProperty e) as [t|] eqn:E; [|reflexivity].
  now apply (serialize_head e).
Qed.

(** *** One step of the parser *)

Lemma parse_value_null (f : nat) (rest : jsstring) :
  parse_value (S f) (js "null" ++ rest) = Some (VNull, rest).
Proof. reflexivity. Qed.

Lemma parse_value_true (f : nat) (rest : jsstring) :
  parse_value (S f) (js "true" ++ rest) = Some (VBool true, rest).
Proof. reflexivity. Qed.

Lemma parse_value_false (f : nat) (rest : jsstring) :
  parse_value (S f) (js "false" ++ rest) = Some (VBool false, rest).
Proof. reflexivity. Qed.

Lemma parse_value_quote (f : nat) (r : jsstring) :
  parse_value (S f) (34 :: r) =
    match parse_string_body r with
    | Some (t, r') => Some (VString t, r')
    | None => None
    end.
Proof. reflexivity. Qed.

Lemma parse_value_string (f : nat) (s rest : jsstring) :
  wf_string s = true ->
  parse_value (S f) (QuoteJSONString s ++ rest) = Some (VString s, rest).
Proof.
  intros Hwf. unfold QuoteJSONString. cbn [app].
  rewrite parse_value_quote, <- app_assoc. cbn [app].
  now rewrite parse_quote_units.
Qed.

Lemma parse_value_number (f : nat) (c : code_unit) (r : jsstring) :
  is_digit c = true \/ c = 45 ->
  parse_value (S f) (c :: r) =
    match parse_number (c :: r) with
    | Some (n, r') => Some (VNumber n, r')
    | None => None
    end.
Proof.
  intros [H | ->]; [|reflexivity].
  unfold is_digit in H. apply andb_true_iff in H as [Hlo Hhi].
  apply N.leb_le in Hlo, Hhi.
  assert (Hws : is_ws c = false).
  { apply starts_value_not_ws. unfold starts_value, is_digit.
    apply N.leb_le in Hlo, Hhi. now rewrite Hlo, Hhi. }
  cbn [parse_value skip_ws]. rewrite Hws.
  repeat match goal with
         | |- context [c =? ?k] =>
             let E := fresh in
             assert (E : (c =? k) = false) by (apply N.eqb_neq; lia);
             rewrite E; clear E
         end.
  reflexivity.
Qed.

Lemma parse_value_array_empty (f : nat) (rest : jsstring) :
  parse_value (S f) (91 :: 93 :: rest) = Some (VArray [], rest).
Proof. reflexivity. Qed.

Lemma parse_value_object_empty (f : nat) (rest : jsstring) :
  parse_value (S f) (123 :: 125 :: rest) = Some (VObject [], rest).
Proof. reflexivity. Qed.

Lemma parse_value_array (f : nat) (r : jsstring) :
  head_is starts_value r = true ->
  parse_value (S f) (91 :: r) =
    match parse_elements f r with
    | Some (vs, r') => Some (VArray vs, r')
    | None => None
    end.
Proof.
  intros H. cbn [parse_value skip_ws is_ws N.eqb Pos.eqb orb].
  rewrite (skip_ws_value r H), (accept_other 93); [reflexivity|].
  destruct r as [|c r]; [reflexivity|]. simpl in *.
  destruct (N.eqb_spec c 93) as [->|]; [discriminate H | reflexivity].
Qed.

Lemma parse_value_object (f : nat) (r : jsstring) :
  head_is (fun c => c =? 34) r = true ->
  parse_value (S f) (123 :: r) =
    match parse_members f r with
    | Some (ms, r') => Some (VObject ms, r')
    | None => None
    end.
Proof.
  intros H. destruct r as [|c r]; [discriminate H|]. simpl in H.
  apply N.eqb_eq in H. subst c. reflexivity.
Qed.

Lemma parse_elements_last (f : nat) (s r : jsstring) (v : value) :
  parse_value f s = Some (v, 93 :: r) ->
  parse_elements (S f) s = Some ([v], r).
Proof. intros H. cbn [parse_elements]. now rewrite H. Qed.

Lemma parse_elements_more (f : nat) (s r : jsstring) (v : value) :
  parse_value f s = Some (v, 44 :: r) ->
  parse_elements (S f) s =
    match parse_elements f r with
    | Some (vs, r') => Some (v :: vs, r')
    | None => None
    end.
Proof. intros H. cbn [parse_elements]. now rewrite H. Qed.

Lemma parse_members_unfold (f : nat) (r0 : jsstring) :
  parse_members (S f) (34 :: r0) =
    match parse_string_body r0 with
    | None => None
    | Some (k, r1) =>
        match accept 58 (skip_ws r1) with
        | None => None
        | Some r2 =>
            match parse_value f r2 with
            | None => None
            | Some (v, r3) =>
                match accept 44 (skip_ws r3) with
                | Some r4 =>
                    match parse_members f r4 with
                    | Some (ms, r5) => Some ((k, v) :: ms, r5)
                    | None => None
                    end
                | None =>
                    match accept 125 (skip_ws r3) with
                    | Some r4 => Some ([(k, v)], r4)
                    | None => None
                    end
                end
            end
        end
    end.
Proof. reflexivity. Qed.

Lemma parse_members_key (f : nat) (k s : jsstring) :
  wf_string k = true ->
  parse_members (S f) ((QuoteJSONString k ++ [58] ++ s)) =
    match parse_value f s with
    | None => None
    | Some (v, r3) =>
        match accept 44 (skip_ws r3) with
        | Some r4 =>
            match parse_members f r4 with
            | Some (ms, r5) => Some ((k, v) :: ms, r5)
            | None => None
            end
        | None =>
            match accept 125 (skip_ws r3) with
            | Some r4 => Some ([(k, v)], r4)
            | None => None
            end
        end
    end.
Proof.
  intros Hwf. unfold QuoteJSONString. cbn [app].
  rewrite parse_members_unfold, <- app_assoc. cbn [app].
  now rewrite parse_quote_units.
Qed.

Lemma parse_members_last (f : nat) (k s r : jsstring) (v : value) :
  wf_string k = true ->
  parse_value f s = Some (v, 125 :: r) ->
  parse_members (S f) (QuoteJSONString k ++ [58] ++ s) = Some ([(k, v)], r).
Proof. intros Hwf H. rewrite parse_members_key by exact Hwf. now rewrite H. Qed.

Lemma parse_members_more (f : nat) (k s r : jsstring) (v : value) :
  wf_string k = true ->
  parse_value f s = Some (v, 44 :: r) ->
  parse_members (S f) (QuoteJSONString k ++ [58] ++ s) =
    match parse_members f r with
    | Some (ms, r') => Some ((k, v) :: ms, r')
    | None => None
    end.
Proof. intros Hwf H. rewrite parse_members_key by exact Hwf. now rewrite H. Qed.

(** *** Elements and members *)

Lemma ends_value_number (rest : jsstring) : ends_value rest = true -> ends_number rest = true.
Proof.
  destruct rest as [|c r]; [reflexivity|]. unfold ends_value, ends_number. simpl.
  intros H. apply orb_true_iff in H as [H | H]; [apply orb_true_iff in H as [H | H]|];
    apply N.eqb_eq in H; subst c; reflexivity.
Qed.

Lemma element_reads_back (e : value) :
  reads_back e -> well_formed e = true ->
  forall (fuel : nat) (rest : jsstring),
    (weight e <= fuel)%nat -> ends_value rest = true ->
    parse_value fuel (element_text e ++ rest) = Some (element_image e, rest).
Proof.
  intros IH Hwf fuel rest Hfuel Hrest. unfold element_text.
  destruct (SerializeJSONProperty e) as [t|] eqn:E.
  - rewrite (IH Hwf t E fuel rest Hfuel Hrest).
    destruct e; try reflexivity. discriminate E.
  - rewrite (serialize_none e E) in *. simpl in Hfuel.
    destruct fuel as [|f]; [lia|]. apply parse_value_null.
Qed.

(** The elements of a non-empty array and the closing bracket. *)
Lemma parse_elements_texts (l : list value) :
  Forall reads_back l -> l <> [] ->
  forall (fuel : nat) (rest : jsstring),
    forallb well_formed l = true ->
    (fold_right (fun e n => S (weight e + n)) O l <= fuel)%nat ->
    parse_elements fuel (join [44] (map element_text l) ++ 93 :: rest)
    = Some (map element_image l, rest).
Proof.
  induction 1 as [|e l He Hl IHl]; [contradiction|].
  intros _ fuel rest Hwf Hfuel.
  simpl in Hwf. apply andb_true_iff in Hwf as [Hwe Hwl].
  simpl in Hfuel. destruct fuel as [|f]; [lia|].
  destruct l as [|e' l'].
  - cbn [map join].
    apply parse_elements_last.
    apply element_reads_back; [exact He | exact Hwe | lia | reflexivity].
  - change (map element_text (e :: e' :: l'))
      with (element_text e :: map element_text (e' :: l')).
    rewrite join_cons by discriminate. rewrite <- !app_assoc.
    change ([44] ++ join [44] (map element_text (e' :: l')) ++ 93 :: rest)
      with (44 :: (join [44] (map element_text (e' :: l')) ++ 93 :: rest)).
    rewrite (parse_elements_more f _ (join [44] (map element_text (e' :: l')) ++ 93 :: rest)
               (element_image e)).
    + rewrite IHl; [reflexivity | discriminate | exact Hwl | lia].
    + apply element_reads_back; [exact He | exact Hwe | lia | reflexivity].
Qed.

Lemma member_image_nil (ms : list (jsstring * value)) :
  flat_map member_text ms = [] -> flat_map member_image ms = [].
Proof.
  induction ms as [|m ms IH]; [reflexivity|]. simpl. intros H.
  apply app_eq_nil in H as [Hm Hms]. rewrite (IH Hms), app_nil_r.
  unfold member_text in Hm. unfold member_image.
  destruct (SerializeJSONProperty (snd m)) eqn:E; [discriminate Hm|].
  now rewrite (serialize_none _ E).
Qed.

Lemma member_text_head (ms : list (jsstring * value)) :
  flat_map member_text ms <> [] ->
  head_is (fun c => c =? 34) (join [44] (flat_map member_text ms)) = true.
Proof.
  intros H. destruct (flat_map member_text ms) as [|p ps] eqn:E; [contradiction|].
  assert (Hp : In p (flat_map member_text ms)) by (rewrite E; now left).
  apply in_flat_map in Hp as (m & _ & Hm). unfold member_text in Hm.
  destruct (SerializeJSONProperty (snd m)); [|contradiction].
  destruct Hm as [<-|[]].
  destruct ps; reflexivity.
Qed.

(** The members of an object that has some and the closing brace. *)
Lemma parse_members_texts (ms : list (jsstring * value)) :
  Forall (fun m => reads_back (snd m)) ms ->
  flat_map member_text ms <> [] ->
  forall (fuel : nat) (rest : jsstring),
    forallb (fun m => wf_string (fst m) && well_formed (snd m)) ms = true ->
    (fold_right (fun m n => match snd m with
                            | VUndefined => n
                            | _ => S (weight (snd m) + n)
                            end) O ms <= fuel)%nat ->
    parse_members fuel (join [44] (flat_map member_text ms) ++ 125 :: rest)
    = Some (flat_map member_image ms, rest).
Proof.
  induction 1 as [|m ms Hm Hms IHms]; [contradiction|].
  intros Hne fuel rest Hwf Hfuel.
  simpl in Hwf. apply andb_true_iff in Hwf as [Hwm Hwms].
  apply andb_true_iff in Hwm as [Hwk Hwx].
  simpl in Hfuel. cbn [flat_map] in *.
  unfold member_text at 1, member_image at 1. unfold member_text at 1 in Hne.
  destruct (SerializeJSONProperty (snd m)) as [t|] eqn:E.
  - assert (Himg : match snd m with
                   | VUndefined => []
                   | _ => [(fst m, json_image (snd m))]
                   end = [(fst m, json_image (snd m))]).
    { destruct (snd m); try reflexivity. discriminate E. }
    rewrite Himg. clear Himg. cbn [app].
    assert (Hbound : (S (weight (snd m) +
                         fold_right (fun m n => match snd m with
                                                | VUndefined => n
                                                | _ => S (weight (snd m) + n)
                                                end) O ms) <= fuel)%nat).
    { destruct (snd m); try exact Hfuel. discriminate E. }
    clear Hfuel.
    destruct fuel as [|f]; [lia|].
    destruct (flat_map member_text ms) as [|p ps] eqn:Etexts.
    + rewrite (member_image_nil ms Etexts). cbn [join].
      rewrite <- !app_assoc.
      apply parse_members_last; [exact Hwk|].
      apply (Hm Hwx t E); [lia | reflexivity].
    + rewrite join_cons by discriminate. rewrite <- !app_assoc.
      change ([44] ++ join [44] (p :: ps) ++ 125 :: rest)
        with (44 :: (join [44] (p :: ps) ++ 125 :: rest)).
      rewrite (parse_members_more f (fst m) _ (join [44] (p :: ps) ++ 125 :: rest)
                 (json_image (snd m)) Hwk).
      * rewrite IHms; [reflexivity | discriminate | exact Hwms | lia].
      * apply (Hm Hwx t E); [lia | reflexivity].
  - rewrite (serialize_none _ E) in *. cbn [app] in *.
    apply IHms; [exact Hne | exact Hwms | exact Hfuel].
Qed.

(** *** Every value reads back *)

Theorem value_reads_back (v : value) : reads_back v.
Proof.
  induction v as [ | | b | n | s | l IHl | ms IHms | | neg] using value_induction;
    intros Hwf t E fuel rest Hfuel Hrest; simpl in Hfuel;
    (destruct fuel as [|f]; [lia|]).
  - discriminate E.
  - injection E as <-. apply parse_value_null.
  - destruct b; injection E as <-;
      [apply parse_value_true | apply parse_value_false].
  - injection E as <-. simpl in Hwf.
    destruct (Number_toString_head n Hwf) as (c & t & Et & Hc).
    rewrite Et. cbn [app]. rewrite parse_value_number by exact Hc.
    change (c :: t ++ rest) with ((c :: t) ++ rest). rewrite <- Et.
    rewrite parse_Number_toString; [reflexivity | exact Hwf |].
    now apply ends_value_number.
  - injection E as <-. now apply parse_value_string.
  - rewrite serialize_array in E. injection E as <-.
    simpl in Hwf. cbn [app json_image]. rewrite <- app_assoc. cbn [app].
    destruct l as [|e l'].
    + apply parse_value_array_empty.
    + rewrite parse_value_array.
      * fold element_image.
        pose proof (parse_elements_texts (e :: l') IHl ltac:(discriminate) f rest Hwf)
          as Helems.
        unfold jsstring, code_unit in *.
        rewrite Helems; [reflexivity | lia].
      * apply head_is_app. destruct l'; cbn [map join].
        -- apply element_text_head. simpl in Hwf. now apply andb_true_iff in Hwf as [H _].
        -- apply head_is_app, element_text_head.
           simpl in Hwf. now apply andb_true_iff in Hwf as [H _].
  - rewrite serialize_object in E. injection E as <-.
    simpl in Hwf. cbn [app json_image]. rewrite <- app_assoc. cbn [app].
    fold member_image.
    destruct (flat_map member_text ms) as [|p ps] eqn:Etexts.
    + rewrite (member_image_nil ms Etexts). apply parse_value_object_empty.
    + rewrite <- Etexts. rewrite parse_value_object.
      * pose proof (parse_members_texts ms IHms ltac:(rewrite Etexts; discriminate)
                      f rest Hwf) as Hmembers.
        unfold jsstring, code_unit in *.
        rewrite Hmembers; [reflexivity | lia].
      * apply head_is_app, member_text_head. rewrite Etexts. discriminate.
  - injection E as <-. apply parse_value_null.
  - injection E as <-. apply parse_value_null.
Qed.

(** *** The fuel of [JSON.parse] suffices *)

Lemma element_weight (e : value) :
  (well_formed e = true -> forall t, SerializeJSONProperty e = Some t ->
                                     (weight e <= List.length t)%nat) ->
  well_formed e = true ->
  (weight e <= List.length (element_text e))%nat.
Proof.
  intros IH Hwf. unfold element_text.
  destruct (SerializeJSONProperty e) as [t|] eqn:E; [now apply IH|].
  rewrite (serialize_none e E). simpl. lia.
Qed.

Theorem weight_le_length (v : value) :
  well_formed v = true ->
  forall t, SerializeJSONProperty v = Some t -> (weight v <= List.length t)%nat.
Proof.
  induction v as [ | | b | n | s | l IHl | ms IHms | | neg] using value_induction;
    intros Hwf t E.
  - discriminate E.
  - injection E as <-. simpl. lia.
  - destruct b; injection E as <-; simpl; lia.
  - injection E as <-. simpl in Hwf.
    destruct (Number_toString_head n Hwf) as (c & t & -> & _). simpl. lia.
  - injection E as <-. simpl. lia.
  - rewrite serialize_array in E. injection E as <-.
    cbn [weight List.length]. rewrite length_app. cbn [List.length].
    simpl in Hwf.
    enough (fold_right (fun e n => S (weight e + n)) O l
            <= S (List.length (join [44%N] (map element_text l))))%nat by lia.
    induction IHl as [|e l He _ IH]; [simpl; lia|].
    simpl in Hwf. apply andb_true_iff in Hwf as [Hwe Hwl].
    specialize (IH Hwl). pose proof (element_weight e He Hwe) as Hlen.
    destruct l as [|e' l'].
    + cbn [map join fold_right]. lia.
    + change (map element_text (e :: e' :: l'))
        with (element_text e :: map element_text (e' :: l')).
      rewrite join_cons by discriminate. rewrite !length_app.
      cbn [fold_right List.length] in *. lia.
  - rewrite serialize_object in E. injection E as <-.
    cbn [weight List.length]. rewrite length_app. cbn [List.length].
    simpl in Hwf.
    enough (fold_right (fun m n => match snd m with
                                   | VUndefined => n
                                   | _ => S (weight (snd m) + n)
                                   end) O ms
            <= S (List.length (join [44%N] (flat_map member_text ms))))%nat by lia.
    induction IHms as [|m ms Hm _ IH]; [simpl; lia|].
    simpl in Hwf. apply andb_true_iff in Hwf as [Hwm Hwms].
    apply andb_true_iff in Hwm as [_ Hwx].
    specialize (IH Hwms). cbn [fold_right flat_map].
    unfold member_text at 1.
    destruct (SerializeJSONProperty (snd m)) as [t|] eqn:Em.
    + specialize (Hm Hwx t eq_refl).
      assert (Hw : match snd m with
                   | VUndefined =>
                       fold_right (fun m n => match snd m with
                                              | VUndefined => n
                                              | _ => S (weight (snd m) + n)
                                              end) O ms
                   | _ =>
                       S (weight (snd m) +
                          fold_right (fun m n => match snd m with
                                                 | VUndefined => n
                                                 | _ => S (weight (snd m) + n)
                                                 end) O ms)
                   end
                   = S (weight (snd m) +
                        fold_right (fun m n => match snd m with
                                               | VUndefined => n
                                               | _ => S (weight (snd m) + n)
                                               end) O ms)).
      { destruct (snd m); try reflexivity. discriminate Em. }
      rewrite Hw. clear Hw. cbn [app].
      destruct (flat_map member_text ms) as [|p ps].
      * cbn [join] in *. change (js ":") with [58]. rewrite !length_app.
        cbn [List.length] in *. lia.
      * rewrite join_cons by discriminate. change (js ":") with [58].
        rewrite !length_app. cbn [List.length] in *. lia.
    + rewrite (serialize_none _ Em). cbn [app]. exact IH.
  - injection E as <-. simpl. lia.
  - injection E as <-. simpl. lia.
Qed.

(** [JSON.parse] of the text of a value is the image of the value. *)
Theorem parse_stringify (v : value) (t : jsstring) :
  well_formed v = true ->
  stringify v = Some t ->
  parse t = Return (json_image v).
Proof.
  intros Hwf E. unfold parse.
  pose proof (value_reads_back v Hwf t E (2 * List.length t + 1)%nat []) as H.
  rewrite app_nil_r in H. rewrite H; [reflexivity | | reflexivity].
  pose proof (weight_le_length v Hwf t E). lia.
Qed.

Lemma number_image_positive (n : number) :
  is_negative_zero n = false -> number_image n = n.
Proof.
  destruct n as [neg ds e]. unfold is_negative_zero, number_image. simpl.
  destruct ds; [intros -> | ]; reflexivity.
Qed.

Lemma json_image_is_json (v : value) : is_json v = true -> json_image v = v.
Proof.
  induction v as [ | | b | n | s | l IHl | ms IHms | | neg] using value_induction;
    intros H; try reflexivity; try discriminate H.
  - simpl in H |- *. f_equal. apply number_image_positive.
    now apply negb_true_iff in H.
  - simpl in H |- *. f_equal.
    induction IHl as [|e l He _ IH]; [reflexivity|].
    simpl in H. apply andb_true_iff in H as [Hj Hl].
    simpl. rewrite (IH Hl), (He Hj).
    destruct e; try reflexivity. discriminate Hj.
  - simpl in H |- *. f_equal.
    induction IHms as [|[k x] ms Hm _ IH]; [reflexivity|].
    simpl in H. apply andb_true_iff in H as [Hj Hl].
    simpl in *. rewrite (IH Hl), (Hm Hj).
    destruct x; try reflexivity. discriminate Hj.
Qed.

Lemma element_image_is_json (e : value) : is_json e = true -> element_image e = e.
Proof.
  intros H. unfold element_image. rewrite (json_image_is_json e H).
  destruct e; try reflexivity. discriminate H.
Qed.

End ValueRoundTrip.

(** * The client *)

Import BitcoinClient.

(** ** The registry gate *)

Lemma own_property_None {A : Type} (o : list (jsstring * A)) (k : jsstring) :
  Runtime.own_property o k = None <-> ~ In k (map fst o).
Proof.
  induction o as [|[k' v] o IH]; simpl.
  - tauto.
  - unfold jsstring_eqb. destruct (jsstring_eq_dec k' k) as [->|Hne].
    + split; [discriminate | intros H; exfalso; apply H; now left].
    + rewrite IH. tauto.
Qed.

Lemma isKnownMethod_false (m : jsstring) :
  Helper.isKnownMethod m = false <->
  ~ In m (map fst Constants.RPC) /\ Runtime.Object_prototype_get m = Runtime.PUndefined.
Proof.
  unfold Helper.isKnownMethod, Runtime.RPC_get.
  rewrite <- own_property_None.
  destruct (Runtime.own_property Constants.RPC m) as [d|].
  - split; [discriminate | intros [H _]; discriminate H].
  - destruct (Runtime.Object_prototype_get m); split; try discriminate; auto;
      intros [_ H]; discriminate H.
Qed.

(** A name for which the check fails is rejected before anything is built
    or sent. *)
Lemma unknown_method_rejected (this : client) (net : transport)
      (m : jsstring) (args : list value) :
  Helper.isKnownMethod m = false ->
  __send this net m args = {| result := Rejected unknown_method; network := [] |}.
Proof.
  intros H. unfold __send. now rewrite H.
Qed.

Lemma known_method_sent (this : client) (net : transport)
      (m : jsstring) (args : list value) :
  Helper.isKnownMethod m = true ->
  __send this net m args =
    {| result := on_response m (net (options this) (dataBinary m args)) Pending;
       network := [ http_request (options this); req_write (dataBinary m args); req_end ] |}.
Proof.
  intros H. unfold __send. now rewrite H.
Qed.

(** C3, at the input where the code departs from it: ["toString"] is not
    a key of the registry, yet the call is not rejected as an unknown
    method; the request is built, sent, and the call resolves with the
    answer of the transport. *)
Theorem send_toString_not_rejected :
  ~ In (js "toString") (map fst Constants.RPC) /\
  forall this : client,
    __send this (Stub.returning 200 [Stub.body_result_42]) (js "toString") [] =
      {| result := Fulfilled Stub.forty_two;
         network := [ http_request (options this);
                      req_write (dataBinary (js "toString") []);
                      req_end ] |}.
Proof.
  split.
  - apply own_property_None. vm_compute. reflexivity.
  - intros this. rewrite known_method_sent by (vm_compute; reflexivity).
    f_equal.
Qed.

(** C10: the names ["toString"], ["hasOwnProperty"], ["constructor"] and
    ["__proto__"] are not keys of the table, [isKnownMethod] returns true
    on them because the lookup finds the property [Object.prototype]
    provides, and a call with such a name sends its request. *)
Theorem prototype_names_are_known :
  Forall
    (fun m =>
       ~ In m (map fst Constants.RPC) /\
       Runtime.own_property Constants.RPC m = None /\
       Runtime.RPC_get m = Runtime.Object_prototype_get m /\
       Runtime.RPC_get m <> Runtime.PUndefined /\
       Helper.isKnownMethod m = true /\
       forall (this : client) (net : transport) (args : list value),
         network (__send this net m args) =
           [ http_request (options this); req_write (dataBinary m args); req_end ])
    (map js [ "toString"; "hasOwnProperty"; "constructor"; "__proto__" ]).
Proof.
  repeat constructor;
    try (apply own_property_None; vm_compute; reflexivity);
    try (vm_compute; reflexivity);
    try (vm_compute; discriminate);
    intros this net args; rewrite known_method_sent by (vm_compute; reflexivity);
    reflexivity.
Qed.

(** ** The arity check *)

Lemma isValidArgsForMethod_never_true (m : jsstring) (args : list value) :
  Helper.isValidArgsForMethod m args <> Return true.
Proof.
  unfold Helper.isValidArgsForMethod.
  destruct (negb (Helper.isKnownMethod m)); [discriminate|].
  destruct (Runtime.get_args (Runtime.RPC_get m)) as [a|]; simpl; [|discriminate].
  destruct (Runtime.get_length a) as [n|]; simpl; [|discriminate].
  destruct (Helper.strict_not_equal _ n); discriminate.
Qed.

(** Where the descriptor has an [args] array, or the method is unknown,
    the check returns false. *)
Lemma isValidArgsForMethod_false_with_args (m : jsstring) (args : list value) d a :
  Runtime.RPC_get m = Runtime.PDescriptor d ->
  Constants.args d = Some a ->
  Helper.isValidArgsForMethod m args = Return false.
Proof.
  intros Hd Ha. unfold Helper.isValidArgsForMethod, Helper.isKnownMethod.
  rewrite Hd. simpl. rewrite Ha.
  destruct a; simpl; [|reflexivity].
  now destruct (negb _).
Qed.

Lemma isValidArgsForMethod_false_unknown (m : jsstring) (args : list value) :
  Helper.isKnownMethod m = false ->
  Helper.isValidArgsForMethod m args = Return false.
Proof.
  intros H. unfold Helper.isValidArgsForMethod. now rewrite H.
Qed.

(** On a known name whose value has no [args], be it a descriptor of the
    table or a property of [Object.prototype], the check raises. *)
Lemma isValidArgsForMethod_raises (m : jsstring) (args : list value) :
  Helper.isKnownMethod m = true ->
  Runtime.get_args (Runtime.RPC_get m) = Return None ->
  Helper.isValidArgsForMethod m args = Throw TypeError.
Proof.
  intros Hk Ha. unfold Helper.isValidArgsForMethod. now rewrite Hk, Ha.
Qed.

(** C7, at the input where the code departs from it: on
    ["getbestblockhash"], a key of the table whose descriptor has no
    [args], the check raises a [TypeError] instead of returning false. *)
Theorem isValidArgsForMethod_raises_without_args :
  In (js "getbestblockhash") (map fst Constants.RPC) /\
  Helper.isValidArgsForMethod (js "getbestblockhash") [] = Throw TypeError.
Proof.
  split.
  - vm_compute. left. reflexivity.
  - vm_compute. reflexivity.
Qed.

(** ** Settlement *)

Lemma on_data_settled (chunk : jsstring) (p : promise) :
  p <> Pending -> on_data chunk p = p.
Proof.
  intros Hp. unfold on_data.
  destruct (response <- JSON.parse chunk ;; get response (js "result"));
    destruct p; simpl; congruence.
Qed.

Lemma chunks_after_settlement (chunks : list jsstring) (p : promise) :
  p <> Pending -> fold_left (fun q chunk => on_data chunk q) chunks p = p.
Proof.
  induction chunks as [|c chunks IH]; simpl; intros Hp; [reflexivity|].
  rewrite on_data_settled by exact Hp. now apply IH.
Qed.

Lemma on_data_settles (chunk : jsstring) : on_data chunk Pending <> Pending.
Proof.
  unfold on_data.
  destruct (response <- JSON.parse chunk ;; get response (js "result")); discriminate.
Qed.

(** With a status that passes both checks, the first chunk decides. *)
Lemma first_chunk_decides (m : jsstring) (res : IncomingMessage)
      (chunk : jsstring) (rest : list jsstring) :
  passes_status_checks (statusCode res) = true ->
  data res = chunk :: rest ->
  on_response m res Pending = on_data chunk Pending.
Proof.
  unfold passes_status_checks, on_response. intros Hs Hd.
  apply andb_true_iff in Hs as [H4 H5].
  apply negb_true_iff in H4, H5. rewrite H4, H5, Hd. simpl.
  apply chunks_after_settlement, on_data_settles.
Qed.

(** Without a chunk and with a status that passes both checks, nothing
    settles the promise. *)
Lemma no_data_stays_pending (this : client) (net : transport)
      (m : jsstring) (args : list value) :
  Helper.isKnownMethod m = true ->
  passes_status_checks (statusCode (net (options this) (dataBinary m args))) = true ->
  data (net (options this) (dataBinary m args)) = [] ->
  result (__send this net m args) = Pending.
Proof.
  intros Hk Hs Hd. rewrite known_method_sent by exact Hk. simpl.
  unfold passes_status_checks in Hs. unfold on_response.
  apply andb_true_iff in Hs as [H4 H5]. apply negb_true_iff in H4, H5.
  now rewrite H4, H5, Hd.
Qed.

(** ** Status codes *)

(** Strictly between 400 and 500 the call rejects with the client error
    of the method and the status, whatever the body. *)
Lemma client_error_above_400 (this : client) (net : transport)
      (m : jsstring) (args : list value) :
  Helper.isKnownMethod m = true ->
  let res := net (options this) (dataBinary m args) in
  (400 < statusCode res < 500)%N ->
  result (__send this net m args) = Rejected (client_error m (statusCode res)).
Proof.
  intros Hk res [Hlo Hhi]. rewrite known_method_sent by exact Hk. simpl.
  fold res. unfold on_response.
  apply N.ltb_lt in Hlo, Hhi. rewrite Hlo, Hhi. simpl.
  apply chunks_after_settlement. discriminate.
Qed.

(** Strictly between 500 and 600 the call rejects with the server error
    of the method and the status, whatever the body. *)
Lemma server_error_above_500 (this : client) (net : transport)
      (m : jsstring) (args : list value) :
  Helper.isKnownMethod m = true ->
  let res := net (options this) (dataBinary m args) in
  (500 < statusCode res < 600)%N ->
  result (__send this net m args) = Rejected (server_error m (statusCode res)).
Proof.
  intros Hk res [Hlo Hhi]. rewrite known_method_sent by exact Hk. simpl.
  fold res. unfold on_response.
  assert (H4 : ((400 <? statusCode res)%N && (statusCode res <? 500)%N) = false).
  { apply andb_false_iff. right. apply N.ltb_ge. lia. }
  apply N.ltb_lt in Hlo, Hhi. rewrite H4, Hlo, Hhi. simpl.
  apply chunks_after_settlement. discriminate.
Qed.

(** C5, at the input where the code departs from it: status 400 lies in
    [400,500), yet the call is not rejected as a client error; the body is
    parsed and the call resolves with its [result]. *)
Theorem status_400_resolves :
  Helper.isKnownMethod (js "uptime") = true /\
  forall this : client,
    result (__send this (Stub.returning 400 [Stub.body_result_42]) (js "uptime") [])
    = Fulfilled Stub.forty_two.
Proof.
  split; [vm_compute; reflexivity|].
  intros this. rewrite known_method_sent by (vm_compute; reflexivity).
  vm_compute. reflexivity.
Qed.

(** C6, at the input where the code departs from it: status 500 lies in
    [500,600), yet the call is not rejected as a server error; the body is
    parsed and the call resolves with its [result], here [null]. *)
Theorem status_500_resolves :
  Helper.isKnownMethod (js "uptime") = true /\
  forall this : client,
    result (__send this (Stub.returning 500 [Stub.body_error_5]) (js "uptime") [])
    = Fulfilled VNull.
Proof.
  split; [vm_compute; reflexivity|].
  intros this. rewrite known_method_sent by (vm_compute; reflexivity).
  vm_compute. reflexivity.
Qed.

(** ** The body *)

(** With a status that passes both checks and a first chunk that parses,
    the call resolves with the [result] property of what was parsed. *)
Lemma first_chunk_result (this : client) (net : transport)
      (m : jsstring) (args : list value)
      (chunk : jsstring) (rest : list jsstring) (response v : value) :
  Helper.isKnownMethod m = true ->
  passes_status_checks (statusCode (net (options this) (dataBinary m args))) = true ->
  data (net (options this) (dataBinary m args)) = chunk :: rest ->
  JSON.parse chunk = Return response ->
  get response (js "result") = Return v ->
  result (__send this net m args) = Fulfilled v.
Proof.
  intros Hk Hs Hd Hp Hg.
  rewrite known_method_sent by exact Hk. simpl.
  rewrite (first_chunk_decides m _ chunk rest Hs Hd).
  unfold on_data. rewrite Hp. simpl. rewrite Hg. reflexivity.
Qed.

(** Every text that [{"result": 42, "error": null}] starts with, other
    than the body itself, fails in the [try] block of the listener. *)
Lemma proper_prefix_throws (first second : jsstring) :
  first ++ second = Stub.body_result_42 -> second <> [] ->
  exists e, (response <- JSON.parse first ;; get response (js "result")) = Throw e.
Proof.
  intros Hbody Hsecond.
  assert (Hfirst : first = firstn (List.length first) Stub.body_result_42)
    by (rewrite <- Hbody, firstn_app, Nat.sub_diag, firstn_all; cbn [firstn];
        now rewrite app_nil_r).
  assert (Hlen : (List.length first < List.length Stub.body_result_42)%nat).
  { rewrite <- Hbody, length_app. destruct second; [contradiction | simpl; lia]. }
  assert (All : forallb
                  (fun n =>
                     match (response <- JSON.parse (firstn n Stub.body_result_42) ;;
                            get response (js "result")) with
                     | Throw _ => true
                     | Return _ => false
                     end)
                  (seq 0 (List.length Stub.body_result_42)) = true)
    by (vm_compute; reflexivity).
  rewrite forallb_forall in All.
  specialize (All (List.length first)). rewrite <- Hfirst in All.
  destruct (response <- JSON.parse first ;; get response (js "result")) as [v|e].
  - discriminate All. apply in_seq. lia.
  - now exists e.
Qed.

(** C8, where the code departs from it: with status 200 the body
    [{"result": 42, "error": null}] resolves to 42 when it arrives as one
    chunk; when it arrives as two chunks, wherever it is cut, the call
    does not resolve to 42 but rejects, with the parse failure of the first
    chunk alone. *)
Theorem split_body_rejects :
  forall (this : client) (m : jsstring),
    Helper.isKnownMethod m = true ->
    result (__send this (Stub.returning 200 [Stub.body_result_42]) m [])
    = Fulfilled Stub.forty_two
    /\
    forall first second : jsstring,
      first ++ second = Stub.body_result_42 -> second <> [] ->
      result (__send this (Stub.returning 200 [first; second]) m [])
      = Rejected {| message := js "failed to parse response '" ++ first ++ js "'." |}.
Proof.
  intros this m Hk. split.
  - apply (first_chunk_result this _ m [] Stub.body_result_42 []
             (VObject [(js "result", Stub.forty_two); (js "error", VNull)]));
      [exact Hk | reflexivity | reflexivity
       | vm_compute; reflexivity | vm_compute; reflexivity].
  - intros first second Hbody Hsecond.
    destruct (proper_prefix_throws first second Hbody Hsecond) as [e He].
    rewrite known_method_sent by exact Hk. cbn [result].
    rewrite (first_chunk_decides m (Stub.returning 200 [first; second] (options this)
                                      (dataBinary m []))
               first [second] eq_refl eq_refl).
    unfold on_data. rewrite He. reflexivity.
Qed.

Lemma split_body_rejects_witness :
  result (__send Stub.readme_client (Stub.returning 200 [Stub.body_result_42])
                 (js "getblockcount") [])
  = Fulfilled Stub.forty_two
  /\
  result (__send Stub.readme_client
                 (Stub.returning 200 [json "{'result': 42, "; json "'error': null}"])
                 (js "getblockcount") [])
  = Rejected {| message := js "failed to parse response '" ++ json "{'result': 42, "
                             ++ js "'." |}.
Proof.
  destruct (split_body_rejects Stub.readme_client (js "getblockcount") eq_refl)
    as [Hone Htwo].
  split; [exact Hone|].
  apply (Htwo (json "{'result': 42, ") (json "'error': null}")).
  - reflexivity.
  - discriminate.
Defined.

Lemma starts_with_app (t s : jsstring) : starts_with t (t ++ s) = true.
Proof.
  induction t as [|a t IH]; simpl; [reflexivity|].
  now rewrite N.eqb_refl, IH.
Qed.

Lemma includes_prefix (t s : jsstring) : includes (t ++ s) t = true.
Proof.
  destruct (t ++ s) eqn:E; simpl.
  - destruct t; [reflexivity | discriminate E].
  - rewrite <- E, starts_with_app. reflexivity.
Qed.

Lemma includes_middle (a t b : jsstring) : includes (a ++ t ++ b) t = true.
Proof.
  induction a as [|x a IH].
  - exact (includes_prefix t b).
  - simpl. rewrite IH. apply orb_true_r.
Qed.

(** C9, where the code departs from it: with status 200 and a body that
    is not valid JSON, the call does not always reject with a failure
    that holds the body.  The empty body delivers no chunk and the
    promise stays pending; the body ["not-json"] in the chunks ["not-"]
    and ["json"] rejects with a message that holds the first chunk, not
    the body; the body ["42 x"] in the chunks ["42"] and [" x"] resolves,
    with [undefined]. *)
Theorem unparsable_body_not_reported :
  Helper.isKnownMethod (js "getblockcount") = true /\
  JSON.parse [] = Throw SyntaxError /\
  JSON.parse (js "not-" ++ js "json") = Throw SyntaxError /\
  JSON.parse (js "42" ++ js " x") = Throw SyntaxError /\
  forall this : client,
    result (__send this (Stub.returning 200 []) (js "getblockcount") [])
    = Pending
    /\
    (result (__send this (Stub.returning 200 [js "not-"; js "json"])
                    (js "getblockcount") [])
     = Rejected {| message := js "failed to parse response 'not-'." |}
     /\ includes (js "failed to parse response 'not-'.") (js "not-json") = false)
    /\
    result (__send this (Stub.returning 200 [js "42"; js " x"])
                   (js "getblockcount") [])
    = Fulfilled VUndefined.
Proof.
  repeat split; try (vm_compute; reflexivity);
    rewrite known_method_sent by (vm_compute; reflexivity);
    vm_compute; reflexivity.
Qed.

(** C2, at the input where the code departs from it: the body
    [{"result": 42, "error": null}] resolves to 42 when it arrives as one
    chunk and rejects when it arrives as two, with the parse failure of
    the first chunk alone. *)
Theorem two_chunks_classified_on_first :
  let first := json "{'result': 4" in
  let second := json "2, 'error': null}" in
  first ++ second = Stub.body_result_42 /\
  forall this : client,
    result (__send this (Stub.returning 200 [first ++ second]) (js "uptime") [])
    = Fulfilled Stub.forty_two
    /\
    result (__send this (Stub.returning 200 [first; second]) (js "uptime") [])
    = Rejected (parse_error first).
Proof.
  split; [reflexivity|].
  intros this. split.
  - rewrite known_method_sent by (vm_compute; reflexivity). vm_compute. reflexivity.
  - rewrite known_method_sent by (vm_compute; reflexivity). vm_compute. reflexivity.
Qed.

(** C1, at the input where the code departs from it: with status 200
    and the body
    [{"result": null, "error": {"code": -5, "message": "not found"}}]
    the call is not rejected; the [error] member is not looked at and the
    call resolves with the [result] member, [null]. *)
Theorem error_envelope_resolves_null :
  Helper.isKnownMethod (js "getblockcount") = true /\
  JSON.parse Stub.body_error_5
  = Return (VObject [ (js "result", VNull);
                      (js "error",
                       VObject [ (js "code", Stub.minus_five);
                                 (js "message", VString (js "not found")) ]) ]) /\
  forall this : client,
    result (__send this (Stub.returning 200 [Stub.body_error_5])
                   (js "getblockcount") [])
    = Fulfilled VNull.
Proof.
  split; [vm_compute; reflexivity|]. split; [vm_compute; reflexivity|].
  intros this. rewrite known_method_sent by (vm_compute; reflexivity).
  vm_compute. reflexivity.
Qed.

(** ** The request body *)

Lemma own_property_Some_In {A : Type} (o : list (jsstring * A)) (k : jsstring) (v : A) :
  Runtime.own_property o k = Some v -> In k (map fst o).
Proof.
  induction o as [|[k' v'] o IH]; simpl; [discriminate|].
  unfold jsstring_eqb. destruct (jsstring_eq_dec k' k) as [->|_]; auto.
Qed.

Lemma isKnownMethod_true (m : jsstring) :
  Helper.isKnownMethod m = true ->
  In m (map fst Constants.RPC ++ js "__proto__" :: Runtime.Object_prototype_functions).
Proof.
  unfold Helper.isKnownMethod, Runtime.RPC_get. intros H. apply in_or_app.
  destruct (Runtime.own_property Constants.RPC m) as [d|] eqn:E.
  - left. now apply (own_property_Some_In _ _ d).
  - right. unfold Runtime.Object_prototype_get in H.
    unfold jsstring_eqb at 1 in H.
    destruct (jsstring_eq_dec m (js "__proto__")) as [->|_]; [now left|].
    right.
    destruct (existsb (jsstring_eqb m) Runtime.Object_prototype_functions) eqn:Ex;
      [|discriminate H].
    apply existsb_exists in Ex as (x & Hin & Hx). unfold jsstring_eqb in Hx.
    destruct (jsstring_eq_dec m x) as [->|_]; [exact Hin | discriminate Hx].
Qed.

(** Every name that passes the gate is a string of code units. *)
Lemma known_method_wf (m : jsstring) :
  Helper.isKnownMethod m = true -> wf_string m = true.
Proof.
  intros H. apply isKnownMethod_true in H.
  assert (All : forallb wf_string
                  (map fst Constants.RPC
                   ++ js "__proto__" :: Runtime.Object_prototype_functions) = true)
    by (vm_compute; reflexivity).
  rewrite forallb_forall in All. now apply All.
Qed.

Lemma dataBinary_text (m : jsstring) (args : list value) :
  JSON.stringify (envelope m args) = Some (dataBinary m args).
Proof. reflexivity. Qed.

(** C4, refuted as stated: the wrapper [gettxoutsetinfo(hash_type)] called
    without an argument passes [[undefined]]; the [params] of the body are
    then [[null]], not the arguments. *)
Lemma undefined_argument_is_coerced :
  Helper.isKnownMethod (js "gettxoutsetinfo") = true /\
  dataBinary (js "gettxoutsetinfo") [VUndefined]
  = json "{'jsonrpc':'1.0','id':'curltest','method':'gettxoutsetinfo','params':[null]}"
  /\
  (body <- JSON.parse (dataBinary (js "gettxoutsetinfo") [VUndefined]) ;;
   get body (js "params")) = Return (VArray [VNull])
  /\
  (body <- JSON.parse (dataBinary (js "gettxoutsetinfo") [VUndefined]) ;;
   get body (js "params")) <> Return (VArray [VUndefined]).
Proof.
  repeat split; try (vm_compute; reflexivity).
  vm_compute. discriminate.
Qed.

(** C4, amended: for a known method and arguments that respect the
    invariants of the representation, the body parses to an object with
    exactly the members [jsonrpc] (["1.0"]), [id] (the string
    ["curltest"]), [method] (the name) and [params]; [params] is an array
    as long as the arguments, with each argument at its place as
    [JSON.stringify] writes it: unchanged if [undefined], [NaN], the
    infinities and [-0] do not occur in it, [null] if it is [undefined],
    [NaN] or an infinity, [0] if it is [-0], and otherwise with these
    replacements inside it ([element_image]). *)
Theorem request_body_decodes :
  forall (m : jsstring) (args : list value),
    Helper.isKnownMethod m = true ->
    forallb well_formed args = true ->
    JSON.parse (dataBinary m args) =
      Return (VObject [ (js "jsonrpc", VString (js "1.0"));
                        (js "id", VString (js "curltest"));
                        (js "method", VString m);
                        (js "params", VArray (map element_image args)) ])
    /\ List.length (map element_image args) = List.length args
    /\ (forall i a, nth_error args i = Some a ->
                    nth_error (map element_image args) i = Some (element_image a))
    /\ (forall i a, nth_error args i = Some a -> is_json a = true ->
                    nth_error (map element_image args) i = Some a)
    /\ (forall i a, nth_error args i = Some a ->
                    a = VUndefined \/ a = VNaN \/ (exists neg, a = VInfinity neg) ->
                    nth_error (map element_image args) i = Some VNull)
    /\ (forall i, nth_error args i = Some (VNumber negative_zero) ->
                  nth_error (map element_image args) i = Some (VNumber zero))
    /\ (forallb is_json args = true -> map element_image args = args).
Proof.
  intros m args Hk Hwf.
  assert (Himage : forall i a, nth_error args i = Some a ->
                     nth_error (map element_image args) i = Some (element_image a))
    by (intros i a Hi; now rewrite nth_error_map, Hi).
  split; [|split; [|split; [|split; [|split; [|split]]]]].
  - apply (ValueRoundTrip.parse_stringify (envelope m args)).
    + simpl. now rewrite (known_method_wf m Hk), Hwf.
    + apply dataBinary_text.
  - apply length_map.
  - exact Himage.
  - intros i a Hi Ha. rewrite (Himage i a Hi).
    now rewrite ValueRoundTrip.element_image_is_json.
  - intros i a Hi [-> | [-> | [neg ->]]]; now rewrite (Himage i _ Hi).
  - intros i Hi. now rewrite (Himage i _ Hi).
  - intros Hj. induction args as [|a args IH]; [reflexivity|].
    simpl in Hj, Hwf. apply andb_true_iff in Hj as [Ha Hj].
    apply andb_true_iff in Hwf as [_ Hwf].
    simpl. rewrite IH, ValueRoundTrip.element_image_is_json; try assumption; try reflexivity.
    intros i b Hi. now rewrite nth_error_map, Hi.
Qed.

Lemma request_body_decodes_witness :
  (let m := js "getblock" in
   let args := [ VString (js "00000000839a8e6886ab5951d76f411475428afc90947ee320161bbf18eb6048");
                 VUndefined ] in
   JSON.parse (dataBinary m args) =
     Return (VObject [ (js "jsonrpc", VString (js "1.0"));
                       (js "id", VString (js "curltest"));
                       (js "method", VString m);
                       (js "params",
                        VArray [ VString (js "00000000839a8e6886ab5951d76f411475428afc90947ee320161bbf18eb6048");
                                 VNull ]) ]))
  /\
  (let m := js "setban" in
   let args := [ VString (js "192.168.0.6"); VString (js "add");
                 VNumber {| negative := false; digits := [8; 6; 4]%N; exponent := 2 |};
                 VBool false;
                 VArray [Stub.minus_five; VNull; VObject [(js "k", Stub.forty_two)]] ] in
   JSON.parse (dataBinary m args) =
     Return (VObject [ (js "jsonrpc", VString (js "1.0"));
                       (js "id", VString (js "curltest"));
                       (js "method", VString m);
                       (js "params", VArray (map element_image args)) ])
   /\ map element_image args = args)
  /\
  (let m := js "estimatesmartfee" in
   let args := [ VNaN; VInfinity true; VNumber negative_zero;
                 VArray [VUndefined; VInfinity false; VNumber negative_zero];
                 VObject [(js "a", VUndefined); (js "b", VNaN)] ] in
   JSON.parse (dataBinary m args) =
     Return (VObject [ (js "jsonrpc", VString (js "1.0"));
                       (js "id", VString (js "curltest"));
                       (js "method", VString m);
                       (js "params",
                        VArray [ VNull; VNull; VNumber zero;
                                 VArray [VNull; VNull; VNumber zero];
                                 VObject [(js "b", VNull)] ]) ])).
Proof.
  split; [|split].
  - intros m args.
    apply (request_body_decodes m args); reflexivity.
  - intros m args.
    destruct (request_body_decodes m args eq_refl eq_refl)
      as (Hbody & _ & _ & _ & _ & _ & Hsame).
    split; [exact Hbody | apply Hsame; reflexivity].
  - intros m args.
    apply (request_body_decodes m args); reflexivity.
Defined.

(** * Further properties of the code *)

(** ** The gate and the arity check *)

Lemma Object_prototype_get_undefined (m : jsstring) :
  Runtime.Object_prototype_get m = Runtime.PUndefined <->
  m <> js "__proto__" /\ ~ In m Runtime.Object_prototype_functions.
Proof.
  unfold Runtime.Object_prototype_get, jsstring_eqb at 1.
  destruct (jsstring_eq_dec m (js "__proto__")) as [->|Hne].
  - split; [discriminate | intros [H _]; now contradiction H].
  - destruct (existsb (jsstring_eqb m) Runtime.Object_prototype_functions) eqn:Ex.
    + split; [discriminate|]. intros [_ Hin]. exfalso. apply Hin.
      apply existsb_exists in Ex as (x & Hx & Heq). unfold jsstring_eqb in Heq.
      destruct (jsstring_eq_dec m x) as [->|_]; [exact Hx | discriminate Heq].
    + split; [|reflexivity]. intros _. split; [exact Hne|]. intros Hin.
      assert (Hex : existsb (jsstring_eqb m) Runtime.Object_prototype_functions = true).
      { apply existsb_exists. exists m. split; [exact Hin|].
        unfold jsstring_eqb. now destruct (jsstring_eq_dec m m). }
      rewrite Hex in Ex. discriminate Ex.
Qed.

(** X1: [isKnownMethod] returns true exactly on the keys of the table and
    on the twelve property names of [Object.prototype]. *)
Theorem isKnownMethod_iff (m : jsstring) :
  Helper.isKnownMethod m = true <->
  In m (map fst Constants.RPC) \/ m = js "__proto__"
  \/ In m Runtime.Object_prototype_functions.
Proof.
  split.
  - intros H. apply isKnownMethod_true in H. apply in_app_or in H as [H | [H | H]]; auto.
  - intros H. destruct (Helper.isKnownMethod m) eqn:E; [reflexivity|].
    apply isKnownMethod_false in E as [Hkey Hproto].
    apply Object_prototype_get_undefined in Hproto as [Hp Hf].
    destruct H as [H | [H | H]]; contradiction.
Qed.

(** X2: a call whose method name is neither a key of the table nor a
    property name of [Object.prototype] is rejected with ['unknown
    method'] and does nothing on the network, whatever the arguments and
    the transport. *)
Theorem unlisted_name_rejected (this : client) (net : transport)
        (m : jsstring) (args : list value) :
  ~ In m (map fst Constants.RPC) ->
  m <> js "__proto__" ->
  ~ In m Runtime.Object_prototype_functions ->
  __send this net m args = {| result := Rejected unknown_method; network := [] |}.
Proof.
  intros Hkey Hp Hf. apply unknown_method_rejected, isKnownMethod_false.
  split; [exact Hkey|]. now apply Object_prototype_get_undefined.
Qed.

Lemma unlisted_name_rejected_witness :
  __send Stub.readme_client (Stub.returning 200 [Stub.body_result_42])
         (js "getUptime") [VNull]
  = {| result := Rejected unknown_method; network := [] |}.
Proof.
  apply unlisted_name_rejected.
  - apply own_property_None. vm_compute. reflexivity.
  - vm_compute. discriminate.
  - vm_compute. intuition discriminate.
Defined.

(** X3: the arity check does not depend on the arguments and never
    returns true: it returns false on an unknown name and on a descriptor
    with [args], and raises a [TypeError] on every other known name. *)
Theorem isValidArgsForMethod_ignores_arguments (m : jsstring) (args args' : list value) :
  Helper.isValidArgsForMethod m args = Helper.isValidArgsForMethod m args'
  /\ Helper.isValidArgsForMethod m args <> Return true
  /\ Helper.isValidArgsForMethod m args =
       match Runtime.RPC_get m with
       | Runtime.PUndefined => Return false
       | Runtime.PDescriptor d =>
           match Constants.args d with
           | Some _ => Return false
           | None => Throw TypeError
           end
       | _ => Throw TypeError
       end.
Proof.
  assert (Form : forall a, Helper.isValidArgsForMethod m a =
                   match Runtime.RPC_get m with
                   | Runtime.PUndefined => Return false
                   | Runtime.PDescriptor d =>
                       match Constants.args d with
                       | Some _ => Return false
                       | None => Throw TypeError
                       end
                   | _ => Throw TypeError
                   end).
  { intros a. unfold Helper.isValidArgsForMethod, Helper.isKnownMethod.
    destruct (Runtime.RPC_get m) as [ | d | f | ]; simpl; try reflexivity.
    destruct (Constants.args d) as [[l | o] | ]; simpl; try reflexivity.
    now destruct (negb _). }
  split; [now rewrite !Form | split; [apply isValidArgsForMethod_never_true | apply Form]].
Qed.

(** ** The outcome of a call *)

Lemma includes_app_r (a s t : jsstring) : includes s t = true -> includes (a ++ s) t = true.
Proof.
  intros H. induction a as [|x a IH]; [exact H|].
  simpl. rewrite IH. apply orb_true_r.
Qed.

Lemma client_error_carries (m : jsstring) (status : N) :
  includes (message (client_error m status)) m = true /\
  includes (message (client_error m status)) (JSON.decimal status) = true.
Proof.
  unfold client_error. cbn [message]. split.
  - apply includes_middle.
  - rewrite !app_assoc. rewrite <- (app_assoc _ (JSON.decimal status)).
    apply includes_middle.
Qed.

Lemma server_error_carries (m : jsstring) (status : N) :
  includes (message (server_error m status)) m = true /\
  includes (message (server_error m status)) (JSON.decimal status) = true.
Proof.
  unfold server_error. cbn [message]. split.
  - apply includes_middle.
  - rewrite !app_assoc. rewrite <- (app_assoc _ (JSON.decimal status)).
    apply includes_middle.
Qed.

(** X4: with a status strictly between 400 and 500 the call rejects,
    whatever the chunks of the body, with the ['[Client error]'] failure,
    whose message contains the method name and the decimal digits of the
    status. *)
Theorem client_error_whatever_the_body (this : client) (net : transport)
        (m : jsstring) (args : list value) :
  Helper.isKnownMethod m = true ->
  (400 < statusCode (net (options this) (dataBinary m args)) < 500)%N ->
  exists e : Error,
    result (__send this net m args) = Rejected e
    /\ starts_with (js "[Client error]") (message e) = true
    /\ includes (message e) m = true
    /\ includes (message e)
         (JSON.decimal (statusCode (net (options this) (dataBinary m args)))) = true.
Proof.
  intros Hk Hs.
  exists (client_error m (statusCode (net (options this) (dataBinary m args)))).
  split; [now apply client_error_above_400|].
  split; [reflexivity | apply client_error_carries].
Qed.

Lemma client_error_whatever_the_body_witness :
  exists e : Error,
    result (__send Stub.readme_client
                   (Stub.returning 404 [Stub.body_result_42; js "more"])
                   (js "getblockcount") []) = Rejected e
    /\ starts_with (js "[Client error]") (message e) = true
    /\ includes (message e) (js "getblockcount") = true
    /\ includes (message e) (js "404") = true.
Proof.
  apply (client_error_whatever_the_body Stub.readme_client
           (Stub.returning 404 [Stub.body_result_42; js "more"])
           (js "getblockcount") []).
  - reflexivity.
  - split; reflexivity.
Defined.

(** X5: with a status strictly between 500 and 600 the call rejects,
    whatever the chunks of the body, with the ['[Server error]'] failure,
    whose message contains the method name and the decimal digits of the
    status. *)
Theorem server_error_whatever_the_body (this : client) (net : transport)
        (m : jsstring) (args : list value) :
  Helper.isKnownMethod m = true ->
  (500 < statusCode (net (options this) (dataBinary m args)) < 600)%N ->
  exists e : Error,
    result (__send this net m args) = Rejected e
    /\ starts_with (js "[Server error]") (message e) = true
    /\ includes (message e) m = true
    /\ includes (message e)
         (JSON.decimal (statusCode (net (options this) (dataBinary m args)))) = true.
Proof.
  intros Hk Hs.
  exists (server_error m (statusCode (net (options this) (dataBinary m args)))).
  split; [now apply server_error_above_500|].
  split; [reflexivity | apply server_error_carries].
Qed.

Lemma server_error_whatever_the_body_witness :
  exists e : Error,
    result (__send Stub.readme_client
                   (Stub.returning 503 [Stub.body_result_42])
                   (js "getblockcount") []) = Rejected e
    /\ starts_with (js "[Server error]") (message e) = true
    /\ includes (message e) (js "getblockcount") = true
    /\ includes (message e) (js "503") = true.
Proof.
  apply (server_error_whatever_the_body Stub.readme_client
           (Stub.returning 503 [Stub.body_result_42])
           (js "getblockcount") []).
  - reflexivity.
  - split; reflexivity.
Defined.

Lemma passes_status_checks_iff (status : N) :
  passes_status_checks status = true <->
  (status <= 400 \/ status = 500 \/ 600 <= status)%N.
Proof.
  unfold passes_status_checks.
  rewrite andb_true_iff, !negb_true_iff, !andb_false_iff, !N.ltb_ge. lia.
Qed.

(** X6: with a status that is at most 400, equal to 500 or at least 600,
    the first chunk settles the call and the chunks after it change
    nothing: the outcome is that of the response cut after its first
    chunk. *)
Theorem later_chunks_are_ignored (this : client) (net : transport)
        (m : jsstring) (args : list value) (chunk : jsstring) (rest : list jsstring) :
  Helper.isKnownMethod m = true ->
  let res := net (options this) (dataBinary m args) in
  (statusCode res <= 400 \/ statusCode res = 500 \/ 600 <= statusCode res)%N ->
  data res = chunk :: rest ->
  result (__send this net m args)
  = result (__send this (Stub.returning (statusCode res) [chunk]) m args)
  /\ result (__send this net m args) <> Pending.
Proof.
  intros Hk res Hs Hd. apply passes_status_checks_iff in Hs.
  rewrite !known_method_sent by exact Hk. cbn [result]. fold res.
  rewrite (first_chunk_decides m res chunk rest Hs Hd).
  change (Stub.returning (statusCode res) [chunk] (options this) (dataBinary m args))
    with {| statusCode := statusCode res; data := [chunk] |}.
  rewrite (first_chunk_decides m {| statusCode := statusCode res; data := [chunk] |}
             chunk [] Hs eq_refl).
  split; [reflexivity | apply on_data_settles].
Qed.

Lemma later_chunks_are_ignored_witness :
  result (__send Stub.readme_client
                 (Stub.returning 301 [json "{'result': true}"; js "<html>"])
                 (js "uptime") [])
  = result (__send Stub.readme_client
                   (Stub.returning 301 [json "{'result': true}"]) (js "uptime") [])
  /\ result (__send Stub.readme_client
                    (Stub.returning 301 [json "{'result': true}"; js "<html>"])
                    (js "uptime") []) <> Pending.
Proof.
  apply (later_chunks_are_ignored Stub.readme_client
           (Stub.returning 301 [json "{'result': true}"; js "<html>"])
           (js "uptime") [] (json "{'result': true}") [js "<html>"]).
  - reflexivity.
  - left. vm_compute. discriminate.
  - reflexivity.
Defined.

(** X7: the callback of [http.request], run on a response, leaves the
    promise pending exactly when the status is at most 400, equal to 500
    or at least 600 and the response has no chunk: a response with an
    empty body never settles the call. *)
Theorem response_without_chunk_pending (m : jsstring) (res : IncomingMessage) :
  on_response m res Pending = Pending <->
  (statusCode res <= 400 \/ statusCode res = 500 \/ 600 <= statusCode res)%N
  /\ data res = [].
Proof.
  split.
  - intros H.
    destruct (passes_status_checks (statusCode res)) eqn:Hs.
    + split; [now apply passes_status_checks_iff|].
      destruct (data res) as [|c rest] eqn:Hd; [reflexivity|].
      rewrite (first_chunk_decides m res c rest Hs Hd) in H.
      now apply on_data_settles in H.
    + exfalso. unfold on_response in H. unfold passes_status_checks in Hs.
      apply andb_false_iff in Hs as [Hs | Hs]; apply negb_false_iff in Hs.
      * rewrite Hs in H. rewrite chunks_after_settlement in H; discriminate.
      * destruct ((400 <? statusCode res)%N && (statusCode res <? 500)%N);
          [|rewrite Hs in H];
          rewrite chunks_after_settlement in H; discriminate.
  - intros [Hs Hd]. apply passes_status_checks_iff in Hs.
    unfold passes_status_checks in Hs. unfold on_response.
    apply andb_true_iff in Hs as [H4 H5]. apply negb_true_iff in H4, H5.
    now rewrite H4, H5, Hd.
Qed.

(** X8: with a status that is at most 400, equal to 500 or at least 600,
    a first chunk that is the JSON text of [null] is valid JSON, yet the
    call rejects with the parse failure: reading [result] of [null]
    throws inside the [try] block. *)
Theorem null_body_rejects (this : client) (net : transport)
        (m : jsstring) (args : list value) (chunk : jsstring) (rest : list jsstring) :
  Helper.isKnownMethod m = true ->
  let res := net (options this) (dataBinary m args) in
  (statusCode res <= 400 \/ statusCode res = 500 \/ 600 <= statusCode res)%N ->
  data res = chunk :: rest ->
  JSON.parse chunk = Return VNull ->
  result (__send this net m args) = Rejected (parse_error chunk).
Proof.
  intros Hk res Hs Hd Hp. apply passes_status_checks_iff in Hs.
  rewrite known_method_sent by exact Hk. simpl. fold res.
  rewrite (first_chunk_decides m res chunk rest Hs Hd).
  unfold on_data. now rewrite Hp.
Qed.

Lemma null_body_rejects_witness :
  result (__send Stub.readme_client (Stub.returning 200 [js " null "])
                 (js "uptime") [])
  = Rejected (parse_error (js " null ")).
Proof.
  apply (null_body_rejects Stub.readme_client (Stub.returning 200 [js " null "])
           (js "uptime") [] (js " null ") []).
  - reflexivity.
  - left. vm_compute. discriminate.
  - reflexivity.
  - reflexivity.
Defined.

Lemma last_member_absent (ms : list (jsstring * value)) (k : jsstring) (found : option value) :
  ~ In k (map fst ms) -> last_member ms k found = found.
Proof.
  revert found. induction ms as [|[k' v] ms IH]; intros found H; [reflexivity|].
  simpl in *. unfold jsstring_eqb.
  destruct (jsstring_eq_dec k' k) as [->|_]; [exfalso; auto|].
  apply IH. tauto.
Qed.

(** X9: with a status that is at most 400, equal to 500 or at least 600,
    a first chunk that parses to a boolean, a number, a string or an
    array, or to an object without a [result] member, resolves the call
    with [undefined]. *)
Theorem body_without_result_resolves_undefined (this : client) (net : transport)
        (m : jsstring) (args : list value) (chunk : jsstring) (rest : list jsstring)
        (response : value) :
  Helper.isKnownMethod m = true ->
  let res := net (options this) (dataBinary m args) in
  (statusCode res <= 400 \/ statusCode res = 500 \/ 600 <= statusCode res)%N ->
  data res = chunk :: rest ->
  JSON.parse chunk = Return response ->
  match response with
  | VUndefined | VNull => False
  | VObject members => ~ In (js "result") (map fst members)
  | _ => True
  end ->
  result (__send this net m args) = Fulfilled VUndefined.
Proof.
  intros Hk res Hs Hd Hp Hshape. apply passes_status_checks_iff in Hs.
  apply (first_chunk_result this net m args chunk rest response);
    try assumption.
  destruct response as [ | | b | n | s | l | ms | | neg];
    try contradiction; try reflexivity.
  simpl. now rewrite last_member_absent.
Qed.

Lemma body_without_result_resolves_undefined_witness :
  result (__send Stub.readme_client (Stub.returning 200 [js "[1, 2]"])
                 (js "uptime") []) = Fulfilled VUndefined
  /\
  result (__send Stub.readme_client
                 (Stub.returning 200 [json "{'error': null, 'id': 'curltest'}"])
                 (js "uptime") []) = Fulfilled VUndefined.
Proof.
  split.
  - apply (body_without_result_resolves_undefined Stub.readme_client
             (Stub.returning 200 [js "[1, 2]"]) (js "uptime") [] (js "[1, 2]") []
             (VArray [Methods.integer [1]%N; Methods.integer [2]%N]));
      try reflexivity; try exact I.
    left. vm_compute. discriminate.
  - apply (body_without_result_resolves_undefined Stub.readme_client
             (Stub.returning 200 [json "{'error': null, 'id': 'curltest'}"])
             (js "uptime") [] (json "{'error': null, 'id': 'curltest'}") []
             (VObject [(js "error", VNull); (js "id", VString (js "curltest"))]));
      try reflexivity.
    + left. vm_compute. discriminate.
    + vm_compute. intuition discriminate.
Defined.

Lemma messages_differ (m m' : jsstring) (s s' : N) (chunk : jsstring) :
  message unknown_method <> message (client_error m s)
  /\ message unknown_method <> message (server_error m s)
  /\ message unknown_method <> message (parse_error chunk)
  /\ message (client_error m s) <> message (server_error m' s')
  /\ message (client_error m s) <> message (parse_error chunk)
  /\ message (server_error m s) <> message (parse_error chunk).
Proof.
  repeat split; intros H; apply (f_equal (firstn 2)) in H;
    vm_compute in H; discriminate H.
Qed.

(** X10: the four failures of [__send] cannot be taken for one another:
    whatever the method names, the statuses and the chunk, the messages
    of the unknown-method, client-error, server-error and parse failures
    are pairwise different. *)
Theorem failures_are_distinguishable (m m' : jsstring) (s s' : N) (chunk : jsstring) :
  unknown_method <> client_error m s
  /\ unknown_method <> server_error m s
  /\ unknown_method <> parse_error chunk
  /\ client_error m s <> server_error m' s'
  /\ client_error m s <> parse_error chunk
  /\ server_error m s <> parse_error chunk.
Proof.
  destruct (messages_differ m m' s s' chunk) as (H1 & H2 & H3 & H4 & H5 & H6).
  repeat split; intros E; apply (f_equal message) in E; contradiction.
Qed.

(** ** The request body *)

Lemma map_element_image_is_json (args : list value) :
  forallb is_json args = true -> map element_image args = args.
Proof.
  induction args as [|a args IH]; [reflexivity|]. simpl. intros H.
  apply andb_true_iff in H as [Ha Hargs].
  now rewrite (IH Hargs), ValueRoundTrip.element_image_is_json.
Qed.

Lemma parse_dataBinary (m : jsstring) (args : list value) :
  wf_string m = true -> forallb well_formed args = true ->
  JSON.parse (dataBinary m args) =
    Return (VObject [ (js "jsonrpc", VString (js "1.0"));
                      (js "id", VString (js "curltest"));
                      (js "method", VString m);
                      (js "params", VArray (map element_image args)) ]).
Proof.
  intros Hm Hargs.
  apply (ValueRoundTrip.parse_stringify (envelope m args)).
  - simpl. now rewrite Hm, Hargs.
  - apply dataBinary_text.
Qed.

(** X11: two calls with the same request body are the same call: for
    method names made of code units and arguments in which [undefined],
    [NaN], the infinities and [-0] do not occur, the body determines the
    method name and the arguments. *)
Theorem request_body_determines_call (m m' : jsstring) (args args' : list value) :
  wf_string m = true -> wf_string m' = true ->
  forallb well_formed args = true -> forallb well_formed args' = true ->
  forallb is_json args = true -> forallb is_json args' = true ->
  dataBinary m args = dataBinary m' args' ->
  m = m' /\ args = args'.
Proof.
  intros Hm Hm' Hw Hw' Hj Hj' H.
  pose proof (parse_dataBinary m args Hm Hw) as P.
  pose proof (parse_dataBinary m' args' Hm' Hw') as P'.
  rewrite H, P' in P. injection P as Hmeth Hparams.
  rewrite !map_element_image_is_json in Hparams by assumption.
  auto.
Qed.

Lemma request_body_determines_call_witness :
  js "getblockhash" = js "getblockhash"
  /\ [Methods.integer [1]%N; VNull] = [Methods.integer [1]%N; VNull].
Proof.
  apply (request_body_determines_call (js "getblockhash") (js "getblockhash")
           [Methods.integer [1]%N; VNull] [Methods.integer [1]%N; VNull]);
    reflexivity.
Defined.

(** ** The methods of the class *)

Lemma methods_are_registered : map Methods.wmethod Methods.methods = map fst Constants.RPC.
Proof. vm_compute. reflexivity. Qed.

Lemma methods_pass_their_name (w : Methods.class_method) :
  In w Methods.methods -> Methods.wname w = Methods.wmethod w.
Proof.
  assert (All : forallb (fun w => jsstring_eqb (Methods.wname w) (Methods.wmethod w))
                  Methods.methods = true) by (vm_compute; reflexivity).
  rewrite forallb_forall in All. intros H. specialize (All w H).
  unfold jsstring_eqb in All.
  now destruct (jsstring_eq_dec (Methods.wname w) (Methods.wmethod w)).
Qed.

Lemma methods_are_known (w : Methods.class_method) :
  In w Methods.methods -> Helper.isKnownMethod (Methods.wmethod w) = true.
Proof.
  assert (All : forallb (fun w => Helper.isKnownMethod (Methods.wmethod w))
                  Methods.methods = true) by (vm_compute; reflexivity).
  rewrite forallb_forall in All. exact (All w).
Qed.

Lemma find_method_In (name : jsstring) (w : Methods.class_method) :
  Methods.find_method name = Some w -> In w Methods.methods /\ Methods.wname w = name.
Proof.
  unfold Methods.find_method. intros H. apply find_some in H as [Hin Heq].
  split; [exact Hin|]. unfold jsstring_eqb in Heq.
  now destruct (jsstring_eq_dec (Methods.wname w) name).
Qed.

(** X12: the class has a wrapper method for a name exactly when the name is a key
    of the table, and that method gives this very name to [__send]. *)
Theorem method_for_every_key (name : jsstring) :
  In name (map fst Constants.RPC) <->
  exists w, Methods.find_method name = Some w /\ Methods.wmethod w = name.
Proof.
  split.
  - intros H.
    assert (All : forallb (fun k => match Methods.find_method k with
                                    | Some w => jsstring_eqb (Methods.wmethod w) k
                                    | None => false
                                    end) (map fst Constants.RPC) = true)
      by (vm_compute; reflexivity).
    rewrite forallb_forall in All. specialize (All name H).
    destruct (Methods.find_method name) as [w|]; [|discriminate All].
    exists w. split; [reflexivity|]. unfold jsstring_eqb in All.
    now destruct (jsstring_eq_dec (Methods.wmethod w) name).
  - intros (w & Hfind & Hm). apply find_method_In in Hfind as [Hin _].
    rewrite <- methods_are_registered, <- Hm. now apply in_map.
Qed.

Lemma rejected_message (a b : Error) : Rejected a = Rejected b -> message a = message b.
Proof. now intros [= ->]. Qed.

Lemma on_response_not_unknown (m : jsstring) (res : IncomingMessage) :
  on_response m res Pending <> Rejected unknown_method.
Proof.
  destruct (messages_differ m m (statusCode res) (statusCode res) [])
    as (H1 & H2 & _).
  unfold on_response.
  destruct ((400 <? statusCode res)%N && (statusCode res <? 500)%N).
  { rewrite chunks_after_settlement by discriminate. cbn [reject].
    intros E. apply rejected_message in E. auto. }
  destruct ((500 <? statusCode res)%N && (statusCode res <? 600)%N).
  { rewrite chunks_after_settlement by discriminate. cbn [reject].
    intros E. apply rejected_message in E. auto. }
  destruct (data res) as [|c rest]; [discriminate|]. cbn [fold_left].
  rewrite chunks_after_settlement by apply on_data_settles.
  unfold on_data.
  destruct (response <- JSON.parse c ;; get response (js "result")); cbn [resolve reject];
    [discriminate|].
  intros E. apply rejected_message in E.
  destruct (messages_differ m m 0 0 c) as (_ & _ & H3 & _). auto.
Qed.

(** X13: a call of a method of the class is never rejected as an unknown
    method, and does exactly three things on the network, in this order:
    it opens the request, writes the body and ends the request. *)
Theorem method_call_sends_one_request (name : jsstring) (w : Methods.class_method)
        (this : client) (net : transport) (supplied : list value) :
  Methods.find_method name = Some w ->
  network (Methods.invoke w this net supplied)
  = [ http_request (options this);
      req_write (dataBinary name (Methods.bind (Methods.parameters w) supplied));
      req_end ]
  /\ result (Methods.invoke w this net supplied) <> Rejected unknown_method.
Proof.
  intros Hfind. apply find_method_In in Hfind as [Hin Hname].
  rewrite (methods_pass_their_name w Hin) in Hname. subst name.
  unfold Methods.invoke.
  rewrite known_method_sent by (now apply methods_are_known).
  split; [reflexivity | apply on_response_not_unknown].
Qed.

Lemma method_call_sends_one_request_witness :
  exists w,
    Methods.find_method (js "getblock") = Some w
    /\ network (Methods.invoke w Stub.readme_client
                  (Stub.returning 200 [Stub.body_result_42]) [VString (js "00ff")])
       = [ http_request (options Stub.readme_client);
           req_write (dataBinary (js "getblock")
                        [VString (js "00ff"); Methods.integer [1]%N]);
           req_end ]
    /\ result (Methods.invoke w Stub.readme_client
                 (Stub.returning 200 [Stub.body_result_42]) [VString (js "00ff")])
       <> Rejected unknown_method.
Proof.
  eexists. split; [reflexivity|].
  apply (method_call_sends_one_request (js "getblock")). reflexivity.
Defined.

Lemma bind_length (ps : list Methods.parameter) (supplied : list value) :
  List.length (Methods.bind ps supplied) = List.length ps.
Proof.
  revert supplied. induction ps as [|p ps IH]; intros supplied; simpl; auto.
Qed.

Lemma bind_well_formed (ps : list Methods.parameter) (supplied : list value) :
  forallb (fun p => match Methods.default p with
                    | Some d => well_formed d
                    | None => true
                    end) ps = true ->
  forallb well_formed supplied = true ->
  forallb well_formed (Methods.bind ps supplied) = true.
Proof.
  revert supplied. induction ps as [|p ps IH]; intros supplied Hps Hs; [reflexivity|].
  simpl in Hps. apply andb_true_iff in Hps as [Hp Hps]. cbn [Methods.bind forallb].
  apply andb_true_iff. split.
  - destruct supplied as [|a supplied]; simpl.
    + destruct (Methods.default p); [exact Hp | reflexivity].
    + simpl in Hs. apply andb_true_iff in Hs as [Ha _].
      destruct a; try exact Ha. destruct (Methods.default p); [exact Hp | reflexivity].
  - apply IH; [exact Hps|]. destruct supplied as [|a supplied]; [reflexivity|].
    simpl in Hs. now apply andb_true_iff in Hs as [_ Hs].
Qed.

Lemma methods_defaults_well_formed (w : Methods.class_method) :
  In w Methods.methods ->
  forallb (fun p => match Methods.default p with
                    | Some d => well_formed d
                    | None => true
                    end) (Methods.parameters w) = true.
Proof.
  assert (All : forallb (fun w => forallb (fun p => match Methods.default p with
                                                    | Some d => well_formed d
                                                    | None => true
                                                    end) (Methods.parameters w))
                  Methods.methods = true) by (vm_compute; reflexivity).
  rewrite forallb_forall in All. exact (All w).
Qed.

(** X14: the body a method of the class sends is a JSON object whose
    [method] is the name of the method and whose [params] has one entry
    per declared parameter, however many arguments the caller gave. *)
Theorem method_call_params (name : jsstring) (w : Methods.class_method)
        (supplied : list value) :
  Methods.find_method name = Some w ->
  forallb well_formed supplied = true ->
  exists params,
    JSON.parse (dataBinary (Methods.wmethod w)
                  (Methods.bind (Methods.parameters w) supplied))
    = Return (VObject [ (js "jsonrpc", VString (js "1.0"));
                        (js "id", VString (js "curltest"));
                        (js "method", VString name);
                        (js "params", VArray params) ])
    /\ List.length params = List.length (Methods.parameters w).
Proof.
  intros Hfind Hwf. apply find_method_In in Hfind as [Hin Hname].
  rewrite (methods_pass_their_name w Hin) in Hname. subst name.
  exists (map element_image (Methods.bind (Methods.parameters w) supplied)). split.
  - apply parse_dataBinary.
    + apply known_method_wf. now apply methods_are_known.
    + apply bind_well_formed; [now apply methods_defaults_well_formed | exact Hwf].
  - now rewrite length_map, bind_length.
Qed.

Lemma method_call_params_witness :
  exists w,
    Methods.find_method (js "listunspent") = Some w
    /\ exists params,
         JSON.parse (dataBinary (Methods.wmethod w)
                       (Methods.bind (Methods.parameters w) [Methods.integer [6]%N]))
         = Return (VObject [ (js "jsonrpc", VString (js "1.0"));
                             (js "id", VString (js "curltest"));
                             (js "method", VString (js "listunspent"));
                             (js "params", VArray params) ])
         /\ List.length params = List.length (Methods.parameters w).
Proof.
  eexists. split; [reflexivity|].
  apply (method_call_params (js "listunspent")); reflexivity.
Defined.

(** X15: a method called with as many arguments as it has parameters,
    none of them [undefined], passes them to [__send] as they are; no
    default applies, not even for an argument that is [null]. *)
Theorem method_call_passes_arguments (w : Methods.class_method)
        (this : client) (net : transport) (supplied : list value) :
  List.length supplied = List.length (Methods.parameters w) ->
  Forall (fun a => a <> VUndefined) supplied ->
  Methods.invoke w this net supplied = __send this net (Methods.wmethod w) supplied.
Proof.
  intros Hlen Hdef. unfold Methods.invoke. f_equal.
  revert supplied Hlen Hdef.
  induction (Methods.parameters w) as [|p ps IH]; intros [|a supplied] Hlen Hdef;
    try discriminate Hlen; [reflexivity|].
  inversion Hdef as [|? ? Ha Hrest]; subst. simpl.
  rewrite IH by (auto; simpl in Hlen; lia).
  destruct a; try reflexivity. contradiction.
Qed.

Lemma method_call_passes_arguments_witness :
  let w := Methods.wrapper "unloadwallet" "unloadwallet"
             [Methods.param "wallet_name";
              Methods.param_default "load_on_startup" VNull] in
  Methods.invoke w Stub.readme_client (Stub.returning 200 [])
    [VString (js "w"); VNull]
  = __send Stub.readme_client (Stub.returning 200 []) (Methods.wmethod w)
      [VString (js "w"); VNull].
Proof.
  intros w.
  apply (method_call_passes_arguments w Stub.readme_client (Stub.returning 200 [])
           [VString (js "w"); VNull]).
  - reflexivity.
  - repeat constructor; discriminate.
Defined.

Lemma bind_pad_more (ps : list Methods.parameter) (supplied : list value) (k : nat) :
  List.length ps <= k ->
  Methods.bind ps supplied
  = Methods.bind ps (firstn (List.length ps) (supplied ++ repeat VUndefined k)).
Proof.
  revert supplied k. induction ps as [|p ps IH]; intros supplied k Hk; [reflexivity|].
  simpl in Hk. destruct supplied as [|a supplied].
  - destruct k as [|k]; [lia|].
    cbn [Methods.bind app List.length repeat firstn hd tl]. f_equal.
    apply (IH [] k). lia.
  - cbn [Methods.bind app List.length firstn hd tl]. f_equal.
    apply IH. lia.
Qed.

Lemma bind_pad (ps : list Methods.parameter) (supplied : list value) :
  Methods.bind ps supplied
  = Methods.bind ps (firstn (List.length ps)
                       (supplied ++ repeat VUndefined (List.length ps))).
Proof. now apply bind_pad_more. Qed.

(** X16: a method looks at its first arguments only, as many as it has
    parameters, and takes a missing argument for [undefined]: the call is
    the call with the arguments cut or filled up with [undefined] to the
    number of parameters. *)
Theorem method_call_arity (w : Methods.class_method)
        (this : client) (net : transport) (supplied : list value) :
  Methods.invoke w this net supplied
  = Methods.invoke w this net
      (firstn (List.length (Methods.parameters w))
         (supplied ++ repeat VUndefined (List.length (Methods.parameters w)))).
Proof.
  unfold Methods.invoke. now rewrite <- bind_pad.
Qed.

(** X17: where the descriptor of a method of the class has an [args]
    array, the method passes as many arguments as the array has entries,
    however many the caller gave. *)
Theorem method_call_matches_descriptor (name : jsstring) (w : Methods.class_method)
        (d : Constants.descriptor) (l : list Constants.ArgumentSpec)
        (supplied : list value) :
  Methods.find_method name = Some w ->
  Runtime.RPC_get name = Runtime.PDescriptor d ->
  Constants.args d = Some (Constants.ArgsArray l) ->
  List.length (Methods.bind (Methods.parameters w) supplied) = List.length l.
Proof.
  intros Hfind Hget Hargs. apply find_method_In in Hfind as [Hin Hname].
  rewrite bind_length.
  assert (All : forallb
                  (fun w =>
                     match Runtime.RPC_get (Methods.wname w) with
                     | Runtime.PDescriptor d =>
                         match Constants.args d with
                         | Some (Constants.ArgsArray l) =>
                             Nat.eqb (List.length (Methods.parameters w)) (List.length l)
                         | _ => true
                         end
                     | _ => true
                     end) Methods.methods = true) by (vm_compute; reflexivity).
  rewrite forallb_forall in All. specialize (All w Hin).
  rewrite Hname, Hget, Hargs in All. now apply Nat.eqb_eq.
Qed.

Lemma method_call_matches_descriptor_witness :
  List.length
    (Methods.bind [Methods.param "subnet"; Methods.param "command";
                   Methods.param "bantime"; Methods.param "absolute"]
       [VString (js "10.0.0.0/8")])
  = List.length [Constants.required "subnet"; Constants.required "command";
                 Constants.optional "bantime"; Constants.optional "absolute"].
Proof.
  apply (method_call_matches_descriptor (js "setban")
           (Methods.wrapper "setban" "setban"
              [Methods.param "subnet"; Methods.param "command";
               Methods.param "bantime"; Methods.param "absolute"])
           {| Constants.args :=
                Some (Constants.ArgsArray
                        [Constants.required "subnet"; Constants.required "command";
                         Constants.optional "bantime"; Constants.optional "absolute"]);
              Constants.desc := true |});
    reflexivity.
Defined.

(** ** The credentials *)

Lemma split_at_colon (u1 u2 p1 p2 : jsstring) :
  ~ In 58%N u1 -> ~ In 58%N u2 ->
  u1 ++ 58%N :: p1 = u2 ++ 58%N :: p2 -> u1 = u2 /\ p1 = p2.
Proof.
  revert u2. induction u1 as [|a u1 IH]; intros [|b u2] H1 H2 E; simpl in *.
  - injection E as E. auto.
  - injection E as Eb _. exfalso. apply H2. left. now symmetry.
  - injection E as Ea _. exfalso. apply H1. now left.
  - injection E as Eab E. subst b.
    destruct (IH u2) as [-> ->]; auto.
Qed.

(** X18: the [auth] option of a request determines the credentials of
    the client when the user names contain no colon. *)
Theorem auth_determines_credentials
        (host host' : jsstring) (port port' : N) (user user' password password' : jsstring) :
  ~ In 58%N user -> ~ In 58%N user' ->
  auth (options (Methods.constructor host port user password))
  = auth (options (Methods.constructor host' port' user' password')) ->
  user = user' /\ password = password'.
Proof.
  intros Hu Hu' E. unfold options, Methods.constructor in E. cbn in E.
  now apply split_at_colon.
Qed.

Lemma auth_determines_credentials_witness :
  js "some_user" = js "some_user" /\ js "some_secure_pw" = js "some_secure_pw".
Proof.
  apply (auth_determines_credentials (js "192.168.0.100") (js "localhost") 8332 18332
           (js "some_user") (js "some_user") (js "some_secure_pw") (js "some_secure_pw")).
  - vm_compute. intuition discriminate.
  - vm_compute. intuition discriminate.
  - reflexivity.
Defined.

(** ** Calls without arguments *)

Lemma bind_nil (ps : list Methods.parameter) :
  Methods.bind ps []
  = map (fun p => match Methods.default p with
                  | Some d => d
                  | None => VUndefined
                  end) ps.
Proof.
  induction ps as [|p ps IH]; [reflexivity|].
  cbn [Methods.bind hd tl map]. now rewrite IH.
Qed.

Lemma methods_defaults_are_json (w : Methods.class_method) :
  In w Methods.methods ->
  forallb (fun p => match Methods.default p with
                    | Some d => is_json d
                    | None => true
                    end) (Methods.parameters w) = true.
Proof.
  assert (All : forallb (fun w => forallb (fun p => match Methods.default p with
                                                    | Some d => is_json d
                                                    | None => true
                                                    end) (Methods.parameters w))
                  Methods.methods = true) by (vm_compute; reflexivity).
  rewrite forallb_forall in All. exact (All w).
Qed.

(** X19: a method of the class called without arguments sends, for each
    parameter in order, its default where it has one and [null] where it
    has none. *)
Theorem method_call_without_arguments (name : jsstring) (w : Methods.class_method) :
  Methods.find_method name = Some w ->
  JSON.parse (dataBinary (Methods.wmethod w) (Methods.bind (Methods.parameters w) []))
  = Return (VObject [ (js "jsonrpc", VString (js "1.0"));
                      (js "id", VString (js "curltest"));
                      (js "method", VString name);
                      (js "params",
                       VArray (map (fun p => match Methods.default p with
                                             | Some d => d
                                             | None => VNull
                                             end) (Methods.parameters w))) ]).
Proof.
  intros Hfind. apply find_method_In in Hfind as [Hin Hname].
  rewrite (methods_pass_their_name w Hin) in Hname. subst name.
  assert (Hmap : map element_image (Methods.bind (Methods.parameters w) [])
                 = map (fun p => match Methods.default p with
                                 | Some d => d
                                 | None => VNull
                                 end) (Methods.parameters w)).
  { rewrite bind_nil, map_map.
    pose proof (methods_defaults_are_json w Hin) as Hj.
    induction (Methods.parameters w) as [|p ps IH]; [reflexivity|].
    simpl in Hj. apply andb_true_iff in Hj as [Hp Hps].
    cbn [map]. rewrite (IH Hps). f_equal.
    destruct (Methods.default p) as [d|]; [|reflexivity].
    now apply ValueRoundTrip.element_image_is_json. }
  rewrite parse_dataBinary.
  - now rewrite Hmap.
  - apply known_method_wf. now apply methods_are_known.
  - apply bind_well_formed; [now apply methods_defaults_well_formed | reflexivity].
Qed.

Lemma method_call_without_arguments_witness :
  JSON.parse (dataBinary (js "getblock")
                (Methods.bind [Methods.param "blockHash";
                               Methods.param_default "verbosity" (Methods.integer [1]%N)]
                   []))
  = Return (VObject [ (js "jsonrpc", VString (js "1.0"));
                      (js "id", VString (js "curltest"));
                      (js "method", VString (js "getblock"));
                      (js "params", VArray [VNull; Methods.integer [1]%N]) ]).
Proof.
  apply (method_call_without_arguments (js "getblock")
           (Methods.wrapper "getblock" "getblock"
              [Methods.param "blockHash";
               Methods.param_default "verbosity" (Methods.integer [1]%N)])).
  reflexivity.
Defined.
